(** * SpaceNewsMoon: the fake-news heuristic, the retention policy and the
      moon-phase calculator of [app.py]

    A shallow embedding of the moderation core of the Flask application:

    - [improved_fake_score] (and the constants it reads),
    - [cleanup_fakes], the purge of over-threshold rows and of their media,
    - the POST branch of [add_news],
    - [moon_phase_info].

    Modelling decisions.

    - A Python [str] is a list of Unicode code points ([pystr]); literals are
      written as UTF-8 text and decoded by [py].
    - Python floats are modelled by exact numbers: the score is a rational
      ([Q]); every summand of the score except the upper-case ratio is a
      multiple of 1/2 and is exact in binary64 as well.  The moon phase uses
      [Q] for the cycle and [R] for the cosine.
    - The parts of the Unicode character database that [str.lower], [\b] and
      [re.IGNORECASE] consult are a parameter ([UnicodeTables]); statements
      quantified over all texts that do not depend on them hold for every
      table, and [basic_tables] (Basic Latin and the Cyrillic letters
      U+0400..U+045F) is used where a text has to be evaluated.
    - The SQLite table [news] is the list of its rows in insertion order; the
      upload folder is a list of file names together with the names whose
      removal fails. *)

From Stdlib Require Import ZArith QArith Qminmax Qround Bool String Ascii List.
From Stdlib Require Import Lia Lqa Reals Qreals Lra Sorted.
Import ListNotations.

Open Scope Z_scope.

(* ================================================================== *)
(** * Text                                                             *)
(* ================================================================== *)

(** A code point, and a Python string. *)
Abbreviation char := Z (only parsing).
Abbreviation pystr := (list Z) (only parsing).

(** UTF-8 decoding of a literal, so that constants read as in the source. *)
Fixpoint utf8_go (bs : list Z) (acc : Z) (need : nat) : pystr :=
  match bs with
  | [] => []
  | b :: rest =>
    match need with
    | O => if b <? 128 then b :: utf8_go rest 0 0%nat
           else if b <? 224 then utf8_go rest (b - 192) 1%nat
           else if b <? 240 then utf8_go rest (b - 224) 2%nat
           else utf8_go rest (b - 240) 3%nat
    | S O => (acc * 64 + (b - 128)) :: utf8_go rest 0 0%nat
    | S n => utf8_go rest (acc * 64 + (b - 128)) n
    end
  end.

Definition py (s : string) : pystr :=
  utf8_go (map (fun a => Z.of_nat (nat_of_ascii a)) (list_ascii_of_string s))
          0 0%nat.

(** One-character literal. *)
Definition ch (s : string) : char := hd 0 (py s).

Definition in_range (lo hi c : char) : bool := (lo <=? c) && (c <=? hi).

(** [str.isspace] for one character: the code points Python treats as
    white space, in [str.strip] and in the regular expression class [\s]. *)
Definition isspace (c : char) : bool :=
  in_range 9 13 c || in_range 28 32 c || (c =? 133) || (c =? 160)
  || (c =? 5760) || in_range 8192 8202 c || (c =? 8232) || (c =? 8233)
  || (c =? 8239) || (c =? 8287) || (c =? 12288).

(** [str.strip()] with no argument: white space removed at both ends. *)
Fixpoint lstrip (s : pystr) : pystr :=
  match s with
  | [] => []
  | c :: s' => if isspace c then lstrip s' else s
  end.

Definition rstrip (s : pystr) : pystr := rev (lstrip (rev s)).

Definition strip (s : pystr) : pystr := lstrip (rstrip s).

(** [w in s] for strings: [w] occurs in [s] as a contiguous run. *)
Fixpoint starts_with (w s : pystr) : bool :=
  match w, s with
  | [], _ => true
  | _ :: _, [] => false
  | a :: w', b :: s' => (a =? b) && starts_with w' s'
  end.

Fixpoint contains (w s : pystr) : bool :=
  starts_with w s
  || match s with
     | [] => false
     | _ :: s' => contains w s'
     end.

(** [s.count(c)] for a one-character needle. *)
Definition count_char (c : char) (s : pystr) : Z :=
  Z.of_nat (List.length (filter (Z.eqb c) s)).

(** [len(s)]. *)
Definition len (s : pystr) : Z := Z.of_nat (List.length s).

(** ** The Unicode tables

    What [str.lower], the word class [\w] behind [\b], and the comparison of
    a pattern literal with a subject character under [re.IGNORECASE] look up
    in the character database. *)
Class UnicodeTables := {
  uni_lower : pystr -> pystr;          (* str.lower() *)
  uni_isalnum : char -> bool;          (* str.isalnum() on one character *)
  uni_ci_eq : char -> char -> bool     (* pattern literal vs subject, IGNORECASE *)
}.

(** The tables restricted to Basic Latin and the Cyrillic letters
    U+0400..U+045F, where every mapping is one character to one character;
    any other code point is caseless and not alphanumeric here. *)
Definition basic_lower_char (c : char) : char :=
  if in_range 65 90 c then c + 32
  else if in_range 1040 1071 c then c + 32
  else if in_range 1024 1039 c then c + 80
  else c.

Definition basic_isalnum (c : char) : bool :=
  in_range 48 57 c || in_range 65 90 c || in_range 97 122 c
  || in_range 1024 1119 c.

Definition basic_tables : UnicodeTables := {|
  uni_lower := map basic_lower_char;
  uni_isalnum := basic_isalnum;
  uni_ci_eq := fun p c => basic_lower_char p =? basic_lower_char c
|}.

(* ================================================================== *)
(** * Regular expressions                                              *)
(* ================================================================== *)

(** The fragment of [re] syntax the program uses. *)
Inductive cls :=
| CRanges (rs : list (char * char))    (* [a-bc-d...] *)
| CSpace.                               (* \s *)

Inductive regex :=
| RLit (w : pystr)                      (* a run of literal characters *)
| RBoundary                             (* \b *)
| RStart                                (* ^ *)
| REnd                                  (* $ *)
| RSeq (r1 r2 : regex)
| RAlt (r1 r2 : regex)                  (* r1|r2 *)
| ROpt (r : regex)                      (* r? *)
| RMany (c : cls) (n : nat).            (* c{n,}; c+ is c{1,} *)


Definition in_cls (c : cls) (x : char) : bool :=
  match c with
  | CRanges rs => existsb (fun '(lo, hi) => in_range lo hi x) rs
  | CSpace => isspace x
  end.

Section Matching.
Context {U : UnicodeTables}.

(** [\w]: alphanumeric or underscore. *)
Definition isword (c : char) : bool := uni_isalnum c || (c =? 95).

Definition word_at (s : pystr) : bool :=
  match s with
  | [] => false
  | c :: _ => isword c
  end.

Definition chr_eq (ic : bool) (p c : char) : bool :=
  if ic then uni_ci_eq p c else p =? c.

(** A matcher state is the subject split at the current position: the text
    before it, reversed, and the text after it. *)
Definition mstate := (pystr * pystr)%type.

Fixpoint match_lit (ic : bool) (w pre suf : pystr) : list mstate :=
  match w with
  | [] => [(pre, suf)]
  | p :: w' =>
    match suf with
    | [] => []
    | c :: suf' =>
      if chr_eq ic p c then match_lit ic w' (c :: pre) suf' else []
    end
  end.

(** All ways to consume at least [n] characters of class [c]. *)
Fixpoint match_many (c : cls) (n : nat) (pre suf : pystr) : list mstate :=
  (match n with O => [(pre, suf)] | S _ => [] end)
  ++ match suf with
     | [] => []
     | x :: suf' =>
       if in_cls c x then match_many c (Nat.pred n) (x :: pre) suf' else []
     end.

(** Every state the expression can leave the matcher in, started at
    [(pre, suf)]; the expression matches there iff the list is not empty. *)
Fixpoint rmatch (ic : bool) (r : regex) (pre suf : pystr) : list mstate :=
  match r with
  | RLit w => match_lit ic w pre suf
  | RBoundary => if xorb (word_at pre) (word_at suf) then [(pre, suf)] else []
  | RStart => match pre with [] => [(pre, suf)] | _ => [] end
  | REnd => match suf with
            | [] => [(pre, suf)]
            | [10] => [(pre, suf)]
            | _ => []
            end
  | RSeq r1 r2 =>
    flat_map (fun st => rmatch ic r2 (fst st) (snd st)) (rmatch ic r1 pre suf)
  | RAlt r1 r2 => rmatch ic r1 pre suf ++ rmatch ic r2 pre suf
  | ROpt r1 => rmatch ic r1 pre suf ++ [(pre, suf)]
  | RMany c n => match_many c n pre suf
  end.

Definition matches_at (ic : bool) (r : regex) (pre suf : pystr) : bool :=
  match rmatch ic r pre suf with
  | [] => false
  | _ :: _ => true
  end.

(** [re.search]: is there a match starting at some position? *)
Fixpoint search_from (ic : bool) (r : regex) (pre suf : pystr) : bool :=
  matches_at ic r pre suf
  || match suf with
     | [] => false
     | c :: suf' => search_from ic r (c :: pre) suf'
     end.



Definition re_search (ic : bool) (r : regex) (s : pystr) : bool :=
  search_from ic r [] s.

(** [re.match]: is there a match starting at position 0? *)
Definition re_match (ic : bool) (r : regex) (s : pystr) : bool :=
  matches_at ic r [] s.

End Matching.

(** [re.findall] for a pattern [c+]: the maximal runs of characters of
    class [c], left to right. *)
Fixpoint findall_runs (c : cls) (cur : pystr) (s : pystr) : list pystr :=
  match s with
  | [] => match cur with [] => [] | _ => [rev cur] end
  | x :: s' =>
    if in_cls c x then findall_runs c (x :: cur) s'
    else match cur with
         | [] => findall_runs c [] s'
         | _ => rev cur :: findall_runs c [] s'
         end
  end.

Definition re_findall_plus (c : cls) (s : pystr) : list pystr :=
  findall_runs c [] s.


(* ================================================================== *)
(** * Configuration constants                                          *)
(* ================================================================== *)

Definition FAKE_THRESHOLD : Q := 70.

Definition SENSATIONAL : list pystr :=
  [py "ШОК"; py "СРОЧНО"; py "НЕВЕРОЯТНО"; py "СЕНСАЦИЯ"; py "РАЗОБЛАЧЕНО";
   py "СКАНДАЛ"; py "EXCLUSIVE"; py "BREAKING"].

(** [плоская\s+земля], [рептилоид], [\bНЛО\b], [заговор]. *)
Definition TELL_FLAT_EARTH : regex :=
  RSeq (RLit (py "плоская")) (RSeq (RMany CSpace 1) (RLit (py "земля"))).
Definition TELL_REPTILOID : regex := RLit (py "рептилоид").
Definition TELL_UFO : regex := RSeq RBoundary (RSeq (RLit (py "НЛО")) RBoundary).
Definition TELL_CONSPIRACY : regex := RLit (py "заговор").

Definition SPACE_FAKE_TELLS : list regex :=
  [TELL_FLAT_EARTH; TELL_REPTILOID; TELL_UFO; TELL_CONSPIRACY].

(** [https?://] *)
Definition URL_REGEX : regex :=
  RSeq (RLit (py "http")) (RSeq (ROpt (RLit (py "s"))) (RLit (py "://"))).

(** [^[A-ZА-ЯЁ]{4,}$] *)
Definition UPPERCASE_WORD : regex :=
  RSeq RStart
    (RSeq (RMany (CRanges [(ch "A", ch "Z"); (ch "А", ch "Я"); (ch "Ё", ch "Ё")]) 4)
          REnd).

(** The class of [[A-Za-zА-Яа-яЁё0-9]+], the token pattern of the scorer. *)
Definition WORD_CLASS : cls :=
  CRanges [(ch "A", ch "Z"); (ch "a", ch "z"); (ch "А", ch "Я");
           (ch "а", ch "я"); (ch "Ё", ch "Ё"); (ch "ё", ch "ё");
           (ch "0", ch "9")].

(** [\b(сенсация|шок|эксклюзив)\b] *)
Definition CLICKBAIT : regex :=
  RSeq RBoundary
    (RSeq (RAlt (RLit (py "сенсация"))
                (RAlt (RLit (py "шок")) (RLit (py "эксклюзив"))))
          RBoundary).

(* ================================================================== *)
(** * The scorer: [improved_fake_score]                                *)
(* ================================================================== *)

Open Scope Q_scope.

Definition Qltb (a b : Q) : bool := negb (Qle_bool b a).

(** [sum(len(w) for w in words)] *)
Definition total_len (words : list pystr) : Z :=
  fold_right (fun w acc => (len w + acc)%Z) 0%Z words.

(** [len(words)] *)
Definition word_count (words : list pystr) : Z := Z.of_nat (List.length words).

Section Scoring.
Context {U : UnicodeTables}.

(** 1. one hit per sensational word that occurs, case-insensitively *)
Definition add_sensational (combined : pystr) (score : Q) : Q :=
  fold_left
    (fun score w =>
       if contains (uni_lower w) (uni_lower combined) then score + 10 else score)
    SENSATIONAL score.

(** 2. one hit per space-specific pattern that matches *)
Definition add_space_tells (combined : pystr) (score : Q) : Q :=
  fold_left
    (fun score pat => if re_search true pat combined then score + 18 else score)
    SPACE_FAKE_TELLS score.

(** 3. no link *)
Definition add_no_url (combined : pystr) (score : Q) : Q :=
  if negb (re_search false URL_REGEX combined) then score + 12 else score.

(** 4. punctuation *)
Definition add_punctuation (combined : pystr) (score : Q) : Q :=
  let excls := count_char (ch "!") combined in
  let ques := count_char (ch "?") combined in
  let score := score + Qmin (inject_Z excls * 2) 20 in
  score + Qmin (inject_Z ques * (3 # 2)) 15.

(** 5. share of upper-case words *)
Definition caps_count (words : list pystr) : Z :=
  Z.of_nat (List.length (filter (re_match false UPPERCASE_WORD) words)).

Definition add_caps_ratio (words : list pystr) (score : Q) : Q :=
  match words with
  | [] => score
  | _ :: _ =>
    let caps_words := caps_count words in
    let ratio := inject_Z caps_words / inject_Z (Z.max 1 (word_count words)) in
    score + Qmin (ratio * 120) 25
  end.

(** 6. short text, short words *)
Definition avg_len (words : list pystr) : Q :=
  inject_Z (total_len words) / inject_Z (Z.max 1 (word_count words)).

Definition add_length (combined : pystr) (words : list pystr) (score : Q) : Q :=
  let score := if (len combined <? 280)%Z then score + 6 else score in
  if Qltb (avg_len words) 4 then score + 5 else score.

(** 7. clickbait words *)
Definition add_clickbait (combined : pystr) (score : Q) : Q :=
  if re_search true CLICKBAIT combined then score + 7 else score.

(** The sum before the final clamp. *)
Definition raw_score (combined : pystr) : Q :=
  let score := 0 in
  let score := add_sensational combined score in
  let score := add_space_tells combined score in
  let score := add_no_url combined score in
  let score := add_punctuation combined score in
  let words := re_findall_plus WORD_CLASS combined in
  let score := add_caps_ratio words score in
  let score := add_length combined words score in
  let score := add_clickbait combined score in
  score.

Definition combine (text title : pystr) : pystr :=
  strip (title ++ [10%Z] ++ text).

Definition improved_fake_score (text title : pystr) : Q :=
  match text with
  | [] => 0
  | _ :: _ =>
    let combined := combine text title in
    Qmax 0 (Qmin 100 (raw_score combined))
  end.

End Scoring.

Close Scope Q_scope.

(* ================================================================== *)
(** * The store, the upload folder and exceptions                      *)
(* ================================================================== *)

(** A row of the table [news]. [image] and [audio] are NULL ([None]) or a
    file name; [fake_score] is the score frozen at insertion. *)
Record news_row := {
  id : Z;
  title : pystr;
  author : pystr;
  content : pystr;
  image : option pystr;
  audio : option pystr;
  created_at : pystr;
  fake_score : Q
}.

(** The files below the upload folder, by path, and the paths whose removal
    the operating system refuses. *)
Record filesystem := {
  files : list pystr;
  locked : list pystr
}.

Record world := {
  db : list news_row;         (* table news, in insertion order *)
  last_id : Z;                (* AUTOINCREMENT counter *)
  fs : filesystem
}.

Inductive exn := FileNotFoundError | PermissionError.

Inductive result (A : Type) :=
| Ok (a : A)
| Raise (e : exn).
Arguments Ok {A} a.
Arguments Raise {A} e.

Definition bind {A B : Type} (m : result A) (k : A -> result B) : result B :=
  match m with
  | Ok a => k a
  | Raise e => Raise e
  end.

Notation "x <- m ;; k" := (bind m (fun x => k))
  (at level 61, m at next level, right associativity).

(** [try: body / except Exception: pass], the state left as it was when
    [body] raised. *)
Definition try_pass {A : Type} (body : result A) (unchanged : A) : result A :=
  match body with
  | Ok a => Ok a
  | Raise _ => Ok unchanged
  end.

Definition pystr_eqb (a b : pystr) : bool :=
  if list_eq_dec Z.eq_dec a b then true else false.

Definition mem (x : pystr) (l : list pystr) : bool := existsb (pystr_eqb x) l.

(** [os.path.join(folder, name)] on POSIX. *)
Definition path_join (folder name : pystr) : pystr :=
  match name with
  | 47 :: _ => name
  | _ =>
    match rev folder with
    | [] => name
    | 47 :: _ => folder ++ name
    | _ => folder ++ [47] ++ name
    end
  end.

Definition os_path_exists (f : filesystem) (fp : pystr) : bool := mem fp (files f).

Definition os_remove (f : filesystem) (fp : pystr) : result filesystem :=
  if negb (mem fp (files f)) then Raise FileNotFoundError
  else if mem fp (locked f) then Raise PermissionError
  else Ok {| files := filter (fun x => negb (pystr_eqb fp x)) (files f);
             locked := locked f |}.

(** [file.save(dest)] *)
Definition save_file (f : filesystem) (dest : pystr) : filesystem :=
  {| files := dest :: files f; locked := locked f |}.

(** Truth value of an optional string: neither [None] nor empty. *)
Definition truthy (o : option pystr) : bool :=
  match o with
  | Some (_ :: _) => true
  | _ => false
  end.

Definition name_of (o : option pystr) : pystr :=
  match o with Some n => n | None => [] end.

(* ================================================================== *)
(** * The purge: [cleanup_fakes]                                       *)
(* ================================================================== *)

Definition over_threshold (r : news_row) : bool :=
  Qltb FAKE_THRESHOLD (fake_score r).

Section Retention.
Variable UPLOAD_FOLDER : pystr.

(** The guarded removal used by the purge:
    [try: if os.path.exists(fp): os.remove(fp) / except Exception: pass]. *)
Definition remove_if_exists (f : filesystem) (name : option pystr)
  : result filesystem :=
  if truthy name then
    let fp := path_join UPLOAD_FOLDER (name_of name) in
    try_pass (if os_path_exists f fp then os_remove f fp else Ok f) f
  else Ok f.

(** The body of [for r in rows]. *)
Definition cleanup_row (f : filesystem) (r : news_row) : result filesystem :=
  f1 <- remove_if_exists f (image r) ;;
  remove_if_exists f1 (audio r).

Fixpoint cleanup_rows (rows : list news_row) (f : filesystem)
  : result filesystem :=
  match rows with
  | [] => Ok f
  | r :: rows' => f1 <- cleanup_row f r ;; cleanup_rows rows' f1
  end.

(** [SELECT id, image, audio FROM news WHERE fake_score > ?] *)
Definition select_fakes (w : world) : list news_row :=
  filter over_threshold (db w).

(** [DELETE FROM news WHERE fake_score > ?] *)
Definition delete_fakes (rows : list news_row) : list news_row :=
  filter (fun r => negb (over_threshold r)) rows.

Definition cleanup_fakes (w : world) : result world :=
  let rows := select_fakes w in
  match rows with
  | [] => Ok w
  | _ :: _ =>
    f <- cleanup_rows rows (fs w) ;;
    Ok {| db := delete_fakes (db w); last_id := last_id w; fs := f |}
  end.

(** The media of a row cannot be removed: each file it names is absent from
    the folder, or its removal is refused. *)
Definition media_stuck (f : filesystem) (name : option pystr) : Prop :=
  truthy name = true ->
  let fp := path_join UPLOAD_FOLDER (name_of name) in
  os_path_exists f fp = false \/ mem fp (locked f) = true.

End Retention.

(* ================================================================== *)
(** * The submission handler: the POST branch of [add_news]            *)
(* ================================================================== *)

Definition ALLOWED_IMG : list pystr :=
  [py "png"; py "jpg"; py "jpeg"; py "gif"; py "webp"].
Definition ALLOWED_AUDIO : list pystr :=
  [py "mp3"; py "ogg"; py "wav"; py "m4a"].

(** [fname.rsplit(".", 1)[-1]]: what follows the last dot, or all of it. *)
Fixpoint after_last_dot (s : pystr) (acc : pystr) : pystr :=
  match s with
  | [] => acc
  | 46 :: s' => after_last_dot s' s'
  | _ :: s' => after_last_dot s' acc
  end.

Definition rsplit_ext (fname : pystr) : pystr := after_last_dot fname fname.

(** The submitted form, its files (by the file name the client sent) and
    the three readings of the clock the handler formats. *)
Record request := {
  form_title : pystr;
  form_author : pystr;
  form_content : pystr;
  file_image : option pystr;
  file_audio : option pystr;
  stamp_image : pystr;       (* utcnow().strftime("%Y%m%d%H%M%S_") *)
  stamp_audio : pystr;
  stamp_created : pystr      (* utcnow().strftime("%Y-%m-%d %H:%M UTC") *)
}.

(** What the handler answers: the flashed message, with the score it shows. *)
Inductive outcome :=
| MissingFields              (* "Заполните заголовок и текст" *)
| BadImageFormat             (* "Недопустимый формат изображения" *)
| BadAudioFormat             (* "Недопустимый формат аудиофайла" *)
| Rejected (score : Q)       (* "Новость отклонена ИИ ... (score%)" *)
| Published (score : Q).     (* "Новость опубликована (оценка фейка: score%)" *)

Definition is_empty (s : pystr) : bool :=
  match s with [] => true | _ :: _ => false end.

Section Submission.
Context {U : UnicodeTables}.
Variable UPLOAD_FOLDER : pystr.
Variable secure_filename : pystr -> pystr.

(** Storing one uploaded file: [None] when the extension is refused, else
    the stored name (if a file was sent) and the folder after [save]. *)
Definition store_upload (allowed : list pystr) (stamp : pystr)
           (file : option pystr) (f : filesystem)
  : option (option pystr * filesystem) :=
  if truthy file then
    let fname := secure_filename (name_of file) in
    let ext := uni_lower (rsplit_ext fname) in
    if mem ext allowed then
      let fname := stamp ++ fname in
      let dest := path_join UPLOAD_FOLDER fname in
      Some (Some fname, save_file f dest)
    else None
  else Some (None, f).

(** [try: os.remove(join(UPLOAD_FOLDER, name)) / except Exception: pass],
    done only for a name that was stored. *)
Definition discard_upload (f : filesystem) (name : option pystr)
  : result filesystem :=
  if truthy name then
    try_pass (os_remove f (path_join UPLOAD_FOLDER (name_of name))) f
  else Ok f.

Definition insert_row (w : world) (f : filesystem) (r : request)
           (title content : pystr) (author : pystr)
           (image_name audio_name : option pystr) (score : Q) : world :=
  let nid := last_id w + 1 in
  {| db := db w ++ [ {| id := nid; title := title; author := author;
                        content := content; image := image_name;
                        audio := audio_name; created_at := stamp_created r;
                        fake_score := score |} ];
     last_id := nid;
     fs := f |}.

(** The extension test of [store_upload] alone. *)
Definition upload_accepted (allowed : list pystr) (file : option pystr) : bool :=
  negb (truthy file)
  || mem (uni_lower (rsplit_ext (secure_filename (name_of file)))) allowed.

(** A form that reaches the scoring step: title and text are not blank and
    no uploaded file is refused. *)
Definition valid_submission (r : request) : bool :=
  negb (is_empty (strip (form_title r)))
  && negb (is_empty (strip (form_content r)))
  && upload_accepted ALLOWED_IMG (file_image r)
  && upload_accepted ALLOWED_AUDIO (file_audio r).

Definition with_fs (w : world) (f : filesystem) : world :=
  {| db := db w; last_id := last_id w; fs := f |}.

Definition add_news (r : request) (w : world) : result (outcome * world) :=
  let title := strip (form_title r) in
  let author := strip (form_author r) in
  let content := strip (form_content r) in
  if is_empty title || is_empty content then Ok (MissingFields, w)
  else
    match store_upload ALLOWED_IMG (stamp_image r) (file_image r) (fs w) with
    | None => Ok (BadImageFormat, w)
    | Some (image_name, f1) =>
      match store_upload ALLOWED_AUDIO (stamp_audio r) (file_audio r) f1 with
      | None => Ok (BadAudioFormat, with_fs w f1)
      | Some (audio_name, f2) =>
        let score := improved_fake_score content title in
        if Qltb FAKE_THRESHOLD score then
          f3 <- discard_upload f2 image_name ;;
          f4 <- discard_upload f3 audio_name ;;
          Ok (Rejected score, with_fs w f4)
        else
          Ok (Published score,
              insert_row w f2 r title content author image_name audio_name score)
      end
    end.

End Submission.

(* ================================================================== *)
(** * The moon phase: [moon_phase_info]                                *)
(* ================================================================== *)

(** An aware [datetime] is the number of microseconds since
    1970-01-01T00:00:00Z; the difference of two is a [timedelta], also in
    microseconds. *)
Abbreviation datetime := Z (only parsing).

(** [datetime(2000, 1, 6, 18, 14, tzinfo=timezone.utc)] *)
Definition EPOCH : datetime := 947182440 * 1000000.

Definition SYNODIC : Q := 29530588853 # 1000000000.

Definition PHASE_NAMES : list pystr :=
  [py "Новолуние"; py "Растущий серп"; py "Первая четверть";
   py "Растущая луна"; py "Полнолуние"; py "Убывающая луна";
   py "Последняя четверть"; py "Стареющий серп"].

(** [timedelta.total_seconds()] *)
Definition total_seconds (td : Z) : Q := inject_Z td / 1000000.

(** [a % b] on numbers: the remainder takes the sign of the divisor. *)
Definition Qmod (a b : Q) : Q := (a - inject_Z (Qfloor (a / b)) * b)%Q.

(** [int(x)]: truncation toward zero. *)
Definition py_int (x : Q) : Z := Z.quot (Qnum x) (Zpos (Qden x)).

(** Rounding of a real to the nearest integer, ties to the even one: what
    [round(x, 1)] does to [10 * x]. *)
Definition round_half_even (x : R) : Z :=
  let f := Int_part x in
  let d := (x - IZR f)%R in
  if Rlt_dec d (1 / 2) then f
  else if Rlt_dec (1 / 2) d then f + 1
  else if Z.even f then f else f + 1.

Definition round1 (x : R) : R := (IZR (round_half_even (x * 10)) / 10)%R.

Record moon_sample := {
  cycle : Q;
  illum : R;
  illum_pct : R;
  name : pystr;
  utc : datetime
}.

Definition elapsed_days (now : datetime) : Q :=
  (total_seconds (now - EPOCH) / 86400)%Q.

Definition cycle_of (now : datetime) : Q :=
  (Qmod (elapsed_days now) SYNODIC / SYNODIC)%Q.

Definition illum_of (c : Q) : R :=
  (1 / 2 * (1 - cos (2 * PI * Q2R c)))%R.

Definition idx_of (c : Q) : Z := py_int (c * 8 + (1 # 2))%Q mod 8.

(** [clock] is what [datetime.now(timezone.utc)] would return. *)
Definition moon_phase_info (clock : datetime) (now : option datetime)
  : moon_sample :=
  let now := match now with Some t => t | None => clock end in
  let cycle := cycle_of now in
  let illum := illum_of cycle in
  let idx := idx_of cycle in
  {| cycle := cycle;
     illum := illum;
     illum_pct := round1 (illum * 100);
     name := nth (Z.to_nat idx) PHASE_NAMES [];
     utc := now |}.

(* ================================================================== *)
(** * The baseline scorer: [fake_score_heuristic]                      *)
(* ================================================================== *)

Section Baseline.
Context {U : UnicodeTables}.

Definition fake_score_heuristic (text title : pystr) : Q :=
  match text with
  | [] => 0%Q
  | _ :: _ =>
    let t := strip (title ++ [10] ++ text) in
    let score := 0%Q in
    (* sensational words *)
    let score :=
      fold_left
        (fun score w =>
           if contains (uni_lower w) (uni_lower t) then (score + 8)%Q else score)
        SENSATIONAL score in
    (* space-specific markers *)
    let score :=
      fold_left
        (fun score pat =>
           if re_search true pat t then (score + 15)%Q else score)
        SPACE_FAKE_TELLS score in
    (* lack of links -> suspicious *)
    let score :=
      if negb (re_search false URL_REGEX t) then (score + 12)%Q else score in
    (* punctuation emphasis *)
    let excls := count_char (ch "!") t in
    let ques := count_char (ch "?") t in
    let score := (score + Qmin (inject_Z excls * (3 # 2)) 15)%Q in
    let score := (score + Qmin (inject_Z ques * (6 # 5)) 12)%Q in
    (* uppercase words ratio *)
    let words := re_findall_plus WORD_CLASS t in
    let score :=
      match words with
      | [] => score
      | _ :: _ =>
        let caps_words := caps_count words in
        let ratio :=
          (inject_Z caps_words / inject_Z (Z.max 1 (word_count words)))%Q in
        (score + Qmin (ratio * 100) 20)%Q
      end in
    (* length heuristics *)
    let avg := avg_len words in
    let score := if len t <? 280 then (score + 6)%Q else score in
    let score := if Qltb avg 4 then (score + 4)%Q else score in
    Qmax 0 (Qmin 100 score)
  end.

End Baseline.

(* ================================================================== *)
(** * The other routes over the table                                  *)
(* ================================================================== *)

(** [ORDER BY id DESC]: insertion of a row into a list that is already in
    descending order of [id]. *)
Fixpoint insert_by_id_desc (r : news_row) (l : list news_row) : list news_row :=
  match l with
  | [] => [r]
  | x :: l' => if id x <=? id r then r :: l else x :: insert_by_id_desc r l'
  end.

Definition order_by_id_desc (rows : list news_row) : list news_row :=
  fold_right insert_by_id_desc [] rows.



(** [SELECT * FROM news WHERE id=?] and [fetchone()]; [None] is the 404 of
    [view_news]. *)
Definition view_news (nid : Z) (w : world) : option news_row :=
  find (fun r => id r =? nid) (db w).

(** [GROUP BY title HAVING cnt > 1] of [check_duplicates]: each title that
    heads more than one row, with the number of its rows.  SQL leaves the
    order of the groups open. *)
Definition count_title (t : pystr) (rows : list news_row) : Z :=
  Z.of_nat (List.length (filter (fun r => pystr_eqb (title r) t) rows)).

Definition check_duplicates (w : world) : list (pystr * Z) :=
  map (fun t => (t, count_title t (db w)))
      (filter (fun t => 1 <? count_title t (db w))
              (nodup (list_eq_dec Z.eq_dec) (map title (db w)))).

Inductive delete_outcome :=
| NotFound            (* "Новость не найдена" *)
| Deleted.            (* "Новость удалена" *)

Section Routes.
Variable UPLOAD_FOLDER : pystr.

(** [delete_news(nid)]: the files of the row are removed by the same
    guarded statements as in the purge, then the row. *)
Definition delete_news (nid : Z) (w : world) : result (delete_outcome * world) :=
  match find (fun r => id r =? nid) (db w) with
  | None => Ok (NotFound, w)
  | Some r =>
    f <- cleanup_row UPLOAD_FOLDER (fs w) r ;;
    Ok (Deleted,
        {| db := filter (fun x => negb (id x =? nid)) (db w);
           last_id := last_id w;
           fs := f |})
  end.

(** [news_list]: the purge, then every row, newest first. *)
Definition news_list (w : world) : result (list news_row * world) :=
  w' <- cleanup_fakes UPLOAD_FOLDER w ;;
  Ok (order_by_id_desc (db w'), w').

(** [check_uploads]: for each row, the image and the audio it names that are
    not in the folder. *)
Definition missing_of (f : filesystem) (r : news_row) : list (Z * pystr) :=
  flat_map
    (fun o =>
       if truthy o && negb (os_path_exists f (path_join UPLOAD_FOLDER (name_of o)))
       then [(id r, name_of o)] else [])
    [image r; audio r].

Definition check_uploads (w : world) : list (Z * pystr) :=
  flat_map (missing_of (fs w)) (db w).

End Routes.

(* ================================================================== *)
(** * The comparison with trusted headlines: [check_news]              *)
(* ================================================================== *)

(** What [check_news] answers, with the similarity it prints. *)
Inductive verdict :=
| LoadFailed                 (* "Не удалось загрузить новости NASA." *)
| Confirmed (s : Q)          (* "Новость подтверждена" *)
| NeedsCheck (s : Q)         (* "Новость требует проверки" *)
| LikelyFake (s : Q).        (* "Новость вероятно фейк" *)

(** [scores.max()] over a list that is not empty. *)
Definition max_of (x : Q) (l : list Q) : Q := fold_left Qmax l x.

(** [fetch_nasa_news] keeps the first ten headlines of the page
    ([articles[:10]]); the page and the cosine similarity of the sentence
    model to the user's text are taken as given. *)
Definition fetch_nasa_news (headlines : list pystr) : list pystr :=
  firstn 10 headlines.

Definition check_news (headlines : list pystr) (sim : pystr -> Q) : verdict :=
  match map sim (fetch_nasa_news headlines) with
  | [] => LoadFailed
  | x :: l =>
    let max_score := max_of x l in
    if Qltb (8 # 10) max_score then Confirmed max_score
    else if Qltb (5 # 10) max_score then NeedsCheck max_score
    else LikelyFake max_score
  end.

(* ================================================================== *)
(** * Scenarios and notions used in the statements                     *)
(* ================================================================== *)


(** The title of scenario A, and a long body without a link: the word
    "космос" one hundred and thirty times. *)
Definition TITLE_A : pystr := py "СРОЧНО!!! ШОК: обнаружен рептилоид на Марсе!!!".







(** A deployment to run the handler in: an upload folder, file names kept
    as they are, nothing stored yet. *)
Definition SAMPLE_FOLDER : pystr := py "static/uploads".

Definition keep_filename (n : pystr) : pystr := n.

Definition EMPTY_WORLD : world :=
  {| db := []; last_id := 0; fs := {| files := []; locked := [] |} |}.

(** A table with one over-threshold row whose image is not in the folder
    and whose audio file cannot be removed. *)
Definition STUCK_ROW : news_row :=
  {| id := 1; title := py "НЛО над городом"; author := py "Аноним";
     content := py "Это заговор!"; image := Some (py "20240101120000_a.png");
     audio := Some (py "20240101120000_b.mp3");
     created_at := py "2024-01-01 12:00 UTC"; fake_score := 90 |}.

Definition STUCK_WORLD : world :=
  {| db := [STUCK_ROW]; last_id := 1;
     fs := {| files := [py "static/uploads/20240101120000_b.mp3"];
              locked := [py "static/uploads/20240101120000_b.mp3"] |} |}.

Definition SHORT_BODY : pystr := py "Учёные молчат.".

Definition text_only_request (ttl body : pystr) : request :=
  {| form_title := ttl; form_author := py "Аноним"; form_content := body;
     file_image := None; file_audio := None;
     stamp_image := py "20240101120000_"; stamp_audio := py "20240101120000_";
     stamp_created := py "2024-01-01 12:00 UTC" |}.

(** ** Notions for the table *)

(** The primary key: no two rows share an [id], and no [id] is beyond the
    AUTOINCREMENT counter. *)
Definition ids_ok (w : world) : Prop :=
  NoDup (map id (db w)) /\ Forall (fun r => id r <= last_id w) (db w).

(** No row is above the threshold. *)
Definition no_fakes (w : world) : Prop :=
  Forall (fun r => (fake_score r <= FAKE_THRESHOLD)%Q) (db w).

(** The paths the rows name as image or audio. *)
Definition media_paths (folder : pystr) (rows : list news_row) : list pystr :=
  flat_map
    (fun r =>
       flat_map (fun o => if truthy o then [path_join folder (name_of o)] else [])
                [image r; audio r])
    rows.

(** A path that a removal takes away: named, and not refused. *)
Definition removable (targets : list pystr) (f : filesystem) (p : pystr) : bool :=
  mem p targets && negb (mem p (locked f)).

(** A table with rows 3, 1 and 2, the second above the threshold, and a
    request with an image and a refused audio file. *)
Definition row_with (i : Z) (ttl : pystr) (sc : Q) : news_row :=
  {| id := i; title := ttl; author := py "Аноним"; content := py "Текст";
     image := None; audio := None;
     created_at := py "2024-01-01 12:00 UTC"; fake_score := sc |}.

Definition SAMPLE_WORLD : world :=
  {| db := [row_with 1 (py "Луна") 20; row_with 2 (py "НЛО") 90;
            row_with 3 (py "Луна") 35];
     last_id := 3;
     fs := {| files := []; locked := [] |} |}.

Definition image_and_bad_audio_request : request :=
  {| form_title := py "Луна сегодня"; form_author := py "Аноним";
     form_content := py "Полнолуние наступит в полночь.";
     file_image := Some (py "moon.png"); file_audio := Some (py "moon.exe");
     stamp_image := py "20240101120000_"; stamp_audio := py "20240101120000_";
     stamp_created := py "2024-01-01 12:00 UTC" |}.

Definition image_request (ttl body : pystr) : request :=
  {| form_title := ttl; form_author := py "Аноним"; form_content := body;
     file_image := Some (py "moon.png"); file_audio := None;
     stamp_image := py "20240101120000_"; stamp_audio := py "20240101120000_";
     stamp_created := py "2024-01-01 12:00 UTC" |}.

(** Two calm submissions, one without files and one with an image, and a
    sensational one with an image. *)
Definition calm_request : request :=
  text_only_request (py "Луна сегодня") (py "Полнолуние наступит в полночь.").

Definition calm_image_request : request :=
  image_request (py "Луна сегодня") (py "Полнолуние наступит в полночь.").

Definition loud_image_request : request := image_request TITLE_A SHORT_BODY.

(** A table whose only row is at the threshold. *)
Definition CLEAN_WORLD : world :=
  {| db := [row_with 1 (py "Луна") 70]; last_id := 1;
     fs := {| files := []; locked := [] |} |}.

(** Half a synodic period after the epoch, to the microsecond. *)
Definition FULL_MOON_INSTANT : datetime := EPOCH + 1275721438450.

(** One headline, and a similarity that is 0.9 whatever the headline. *)
Definition ONE_HEADLINE : list pystr := [py "Artemis II crew returns"].

Definition close_match (h : pystr) : Q := 9 # 10.

(** Five synodic periods are a whole number of microseconds. *)
Definition FIVE_PERIODS : Z := 12757214384496.


(** Newest first: every row is followed only by rows of smaller or equal
    [id]. *)
Definition newest_first (rows : list news_row) : Prop :=
  StronglySorted (fun a b => id b <= id a) rows.

(** ** Notions for the moon phase *)

(** The fractional part of a rational. *)
Definition Qfrac (x : Q) : Q := (x - inject_Z (Qfloor x))%Q.

(** Rounding of a rational to the nearest integer, ties to the even one. *)
Definition Qround_half_even (x : Q) : Z :=
  let f := Qfloor x in
  match (Qfrac x ?= 1 # 2)%Q with
  | Lt => f
  | Gt => f + 1
  | Eq => if Z.even f then f else f + 1
  end.

(** [timedelta(days=d)]: a duration is a whole number of microseconds. *)
Definition timedelta_days (d : Q) : Z :=
  Qround_half_even (d * 86400 * 1000000)%Q.

(** One synodic period as a [timedelta]: 2551442876899 microseconds, a
    fifth of a microsecond short of the period. *)
Definition SYNODIC_TD : Z := Eval vm_compute in timedelta_days SYNODIC.

(** What the cycle loses when one [SYNODIC_TD] passes. *)
Definition SHIFT : Q := 1 # 12757214384496.

(** The position of [t] in eighths of the cycle, plus one half: the phase
    index is its integer part, and bucket boundaries are its integers. *)
Definition bucket_position (t : datetime) : Q := (cycle_of t * 8 + (1 # 2))%Q.

(** [t] is at least [margin] eighths of a cycle away from every bucket
    boundary. *)
Definition clear_of_boundary (margin : Q) (t : datetime) : Prop :=
  exists k : Z,
    (inject_Z k + margin <= bucket_position t
     /\ bucket_position t <= inject_Z k + 1 - margin)%Q.

(** One billionth of a bucket, about 0.3 milliseconds. *)
Definition MARGIN : Q := 1 # 1000000000.

(** The instant 797325.899031 seconds after the epoch, on the boundary
    between the third and the fourth bucket. *)
Definition BOUNDARY_INSTANT : datetime := EPOCH + 797325899031.

(* ================================================================== *)
(** * Properties                                                       *)
(* ================================================================== *)

(** Linear arithmetic over the rationals and over the reals. *)
Ltac qlra := Lqa.lra.
Ltac rlra := Lra.lra.

(** ** Comparisons and the clamp *)

Lemma Qltb_lt (a b : Q) : Qltb a b = true <-> (a < b)%Q.
Proof.
  unfold Qltb. rewrite negb_true_iff. split; intro H.
  - apply Qnot_le_lt. intro Hle. apply Qle_bool_iff in Hle. congruence.
  - destruct (Qle_bool b a) eqn:E; [|reflexivity].
    apply Qle_bool_iff in E. exfalso. exact (Qlt_not_le _ _ H E).
Qed.

Lemma Qltb_ge (a b : Q) : Qltb a b = false <-> (b <= a)%Q.
Proof.
  unfold Qltb. rewrite negb_false_iff. apply Qle_bool_iff.
Qed.

Lemma clamp_range (x : Q) : (0 <= Qmax 0 (Qmin 100 x) <= 100)%Q.
Proof.
  split.
  - apply Q.le_max_l.
  - apply Q.max_lub; [discriminate | apply Q.le_min_l].
Qed.

(** ** Stripping *)

Lemma lstrip_split (s : pystr) :
  exists d, s = d ++ lstrip s /\ forallb isspace d = true.
Proof.
  induction s as [|c s IH]; simpl.
  - exists []. split; reflexivity.
  - destruct (isspace c) eqn:E.
    + destruct IH as (d & Hd & Hs). exists (c :: d). simpl.
      rewrite E, Hs. split; [f_equal; exact Hd | reflexivity].
    + exists []. split; reflexivity.
Qed.

Lemma lstrip_app (u v : pystr) :
  lstrip (u ++ v) = match lstrip u with
                    | [] => lstrip v
                    | _ :: _ => lstrip u ++ v
                    end.
Proof.
  induction u as [|c u IH]; simpl.
  - destruct (lstrip v); reflexivity.
  - destruct (isspace c); [exact IH | reflexivity].
Qed.



(** ** Matching *)

Section MatchingFacts.
Context {U : UnicodeTables}.











End MatchingFacts.

Section ScoreBounds.
Context {U : UnicodeTables}.

(** C3: the score is always within [0, 100], and the empty body with the
    empty title scores exactly 0. *)
Theorem score_in_range_and_empty_is_zero :
  (forall text title : pystr,
      (0 <= improved_fake_score text title <= 100)%Q)
  /\ improved_fake_score [] [] = 0%Q.
Proof.
  split; [|reflexivity].
  intros text title. unfold improved_fake_score.
  destruct text as [|c text].
  - split; discriminate.
  - apply clamp_range.
Qed.

(** C10: with an empty body the score is exactly 0 whatever the title is,
    so it is never above 0 and never above the threshold. *)
Theorem empty_body_scores_zero (title : pystr) :
  improved_fake_score [] title = 0%Q
  /\ ~ (0 < improved_fake_score [] title)%Q
  /\ Qltb FAKE_THRESHOLD (improved_fake_score [] title) = false.
Proof.
  repeat split.
  intro H. discriminate H.
Qed.

End ScoreBounds.

(** ** The purge *)

Section RetentionFacts.
Variable UPLOAD_FOLDER : pystr.

Lemma try_pass_ok {A : Type} (body : result A) (a0 : A) :
  exists a, try_pass body a0 = Ok a.
Proof. destruct body; simpl; eauto. Qed.

Lemma remove_if_exists_ok (f : filesystem) (name : option pystr) :
  exists f', remove_if_exists UPLOAD_FOLDER f name = Ok f'.
Proof.
  unfold remove_if_exists. destruct (truthy name); [|eauto].
  apply try_pass_ok.
Qed.

Lemma cleanup_row_ok (f : filesystem) (r : news_row) :
  exists f', cleanup_row UPLOAD_FOLDER f r = Ok f'.
Proof.
  unfold cleanup_row.
  destruct (remove_if_exists_ok f (image r)) as [f1 ->]. simpl.
  apply remove_if_exists_ok.
Qed.

Lemma cleanup_rows_ok (rows : list news_row) :
  forall f, exists f', cleanup_rows UPLOAD_FOLDER rows f = Ok f'.
Proof.
  induction rows as [|r rows IH]; intro f; simpl.
  - eauto.
  - destruct (cleanup_row_ok f r) as [f1 ->]. simpl. apply IH.
Qed.

(** The sweep never raises, and the table it leaves is the old one without
    its over-threshold rows. *)
Lemma cleanup_fakes_ok (w : world) :
  exists w', cleanup_fakes UPLOAD_FOLDER w = Ok w'
             /\ db w' = delete_fakes (db w)
             /\ last_id w' = last_id w.
Proof.
  unfold cleanup_fakes.
  destruct (select_fakes w) as [|r rows] eqn:E.
  - exists w. split; [reflexivity|]. split; [|reflexivity].
    unfold select_fakes in E. unfold delete_fakes.
    generalize dependent (db w). intro l.
    induction l as [|x l IH]; simpl; intro E; [reflexivity|].
    destruct (over_threshold x); [discriminate|].
    simpl. f_equal. apply IH. exact E.
  - destruct (cleanup_rows_ok (r :: rows) (fs w)) as [f' ->]. simpl.
    eexists. repeat split.
Qed.

Lemma delete_fakes_clean (rows : list news_row) :
  filter over_threshold (delete_fakes rows) = [].
Proof.
  unfold delete_fakes. induction rows as [|x l IH]; simpl; [reflexivity|].
  destruct (over_threshold x) eqn:E; simpl; [exact IH|].
  rewrite E. exact IH.
Qed.

Lemma in_delete_fakes (rows : list news_row) (r : news_row) :
  In r (delete_fakes rows) <-> In r rows /\ over_threshold r = false.
Proof.
  unfold delete_fakes. rewrite filter_In, negb_true_iff. reflexivity.
Qed.

(** C2: after a sweep no row with [fake_score > FAKE_THRESHOLD] is left,
    from whatever state of the table and of the upload folder it starts. *)
Theorem sweep_leaves_no_fake (w : world) :
  exists w', cleanup_fakes UPLOAD_FOLDER w = Ok w'
             /\ forall r, In r (db w') -> ~ (FAKE_THRESHOLD < fake_score r)%Q.
Proof.
  destruct (cleanup_fakes_ok w) as (w' & Hrun & Hdb & _).
  exists w'. split; [exact Hrun|].
  intros r Hin Hlt. rewrite Hdb in Hin.
  apply in_delete_fakes in Hin. destruct Hin as [_ Hno].
  apply Qltb_lt in Hlt. unfold over_threshold in Hno. congruence.
Qed.

(** C5: a second sweep right after a first one selects no row and changes
    nothing, and every row the first sweep selected is gone. *)
Theorem sweep_idempotent (w : world) :
  exists w1,
    cleanup_fakes UPLOAD_FOLDER w = Ok w1
    /\ select_fakes w1 = []
    /\ cleanup_fakes UPLOAD_FOLDER w1 = Ok w1
    /\ forall r, In r (select_fakes w) -> ~ In r (db w1).
Proof.
  destruct (cleanup_fakes_ok w) as (w1 & Hrun & Hdb & _).
  exists w1. split; [exact Hrun|].
  assert (Hsel : select_fakes w1 = []).
  { unfold select_fakes. rewrite Hdb. apply delete_fakes_clean. }
  split; [exact Hsel|]. split.
  - unfold cleanup_fakes. rewrite Hsel. reflexivity.
  - intros r Hin Hin1. unfold select_fakes in Hin.
    apply filter_In in Hin. destruct Hin as [_ Hover].
    rewrite Hdb in Hin1. apply in_delete_fakes in Hin1.
    destruct Hin1 as [_ Hno]. congruence.
Qed.

(** C6: an over-threshold row whose media files are missing, or cannot be
    removed, is deleted all the same, and the sweep does not raise. *)
Theorem sweep_deletes_row_despite_media (w : world) (r : news_row) :
  In r (db w) ->
  (FAKE_THRESHOLD < fake_score r)%Q ->
  media_stuck UPLOAD_FOLDER (fs w) (image r) ->
  media_stuck UPLOAD_FOLDER (fs w) (audio r) ->
  exists w', cleanup_fakes UPLOAD_FOLDER w = Ok w' /\ ~ In r (db w').
Proof.
  intros Hin Hover _ _.
  destruct (cleanup_fakes_ok w) as (w' & Hrun & Hdb & _).
  exists w'. split; [exact Hrun|].
  intro Hin'. rewrite Hdb in Hin'. apply in_delete_fakes in Hin'.
  destruct Hin' as [_ Hno]. apply Qltb_lt in Hover.
  unfold over_threshold in Hno. congruence.
Qed.

End RetentionFacts.

Lemma sweep_deletes_row_despite_media_witness :
  In STUCK_ROW (db STUCK_WORLD)
  /\ (FAKE_THRESHOLD < fake_score STUCK_ROW)%Q
  /\ media_stuck SAMPLE_FOLDER (fs STUCK_WORLD) (image STUCK_ROW)
  /\ media_stuck SAMPLE_FOLDER (fs STUCK_WORLD) (audio STUCK_ROW)
  /\ exists w', cleanup_fakes SAMPLE_FOLDER STUCK_WORLD = Ok w'
                /\ ~ In STUCK_ROW (db w').
Proof.
  assert (H1 : In STUCK_ROW (db STUCK_WORLD)) by (left; reflexivity).
  assert (H2 : (FAKE_THRESHOLD < fake_score STUCK_ROW)%Q) by reflexivity.
  assert (H3 : media_stuck SAMPLE_FOLDER (fs STUCK_WORLD) (image STUCK_ROW))
    by (intros _; left; vm_compute; reflexivity).
  assert (H4 : media_stuck SAMPLE_FOLDER (fs STUCK_WORLD) (audio STUCK_ROW))
    by (intros _; right; vm_compute; reflexivity).
  repeat (split; [assumption|]).
  exact (sweep_deletes_row_despite_media SAMPLE_FOLDER STUCK_WORLD STUCK_ROW
                                         H1 H2 H3 H4).
Defined.

(** ** The submission handler *)

Section SubmissionFacts.
Context {U : UnicodeTables}.
Variable UPLOAD_FOLDER : pystr.
Variable secure_filename : pystr -> pystr.

Lemma store_upload_accepted (allowed : list pystr) (stamp : pystr)
      (file : option pystr) (f : filesystem) :
  upload_accepted secure_filename allowed file = true ->
  exists n f', store_upload UPLOAD_FOLDER secure_filename allowed stamp file f
               = Some (n, f').
Proof.
  unfold upload_accepted, store_upload. intro H.
  destruct (truthy file); simpl in H.
  - rewrite H. eauto.
  - eauto.
Qed.

Lemma discard_upload_ok (f : filesystem) (name : option pystr) :
  exists f', discard_upload UPLOAD_FOLDER f name = Ok f'.
Proof.
  unfold discard_upload. destruct (truthy name); [|eauto].
  destruct (os_remove f _); simpl; eauto.
Qed.

(** A form that reaches the scoring step gets past the field test and both
    uploads, which leaves the comparison of the score with the threshold. *)
Lemma add_news_reaches_scoring (r : request) (w : world) :
  valid_submission secure_filename r = true ->
  exists n1 n2 f2,
    add_news UPLOAD_FOLDER secure_filename r w
    = let ttl := strip (form_title r) in
      let body := strip (form_content r) in
      let score := improved_fake_score body ttl in
      if Qltb FAKE_THRESHOLD score then
        f3 <- discard_upload UPLOAD_FOLDER f2 n1 ;;
        f4 <- discard_upload UPLOAD_FOLDER f3 n2 ;;
        Ok (Rejected score, with_fs w f4)
      else
        Ok (Published score,
            insert_row w f2 r ttl body (strip (form_author r)) n1 n2 score).
Proof.
  intro Hv. unfold valid_submission in Hv.
  apply andb_prop in Hv. destruct Hv as [Hv Haud].
  apply andb_prop in Hv. destruct Hv as [Hv Himg].
  apply andb_prop in Hv. destruct Hv as [Ht Hc].
  apply negb_true_iff in Ht. apply negb_true_iff in Hc.
  unfold add_news. rewrite Ht, Hc. cbn [orb].
  destruct (store_upload_accepted ALLOWED_IMG (stamp_image r) (file_image r)
              (fs w) Himg) as (n1 & f1 & ->).
  destruct (store_upload_accepted ALLOWED_AUDIO (stamp_audio r) (file_audio r)
              f1 Haud) as (n2 & f2 & ->).
  exists n1, n2, f2. reflexivity.
Qed.

(** Above the threshold: rejected with the score, the table untouched. *)
Lemma add_news_rejects (r : request) (w : world) :
  valid_submission secure_filename r = true ->
  (FAKE_THRESHOLD
   < improved_fake_score (strip (form_content r)) (strip (form_title r)))%Q ->
  exists w',
    add_news UPLOAD_FOLDER secure_filename r w
    = Ok (Rejected (improved_fake_score (strip (form_content r))
                                        (strip (form_title r))), w')
    /\ db w' = db w.
Proof.
  intros Hv Hlt.
  destruct (add_news_reaches_scoring r w Hv) as (n1 & n2 & f2 & ->).
  cbv zeta. apply Qltb_lt in Hlt. rewrite Hlt.
  destruct (discard_upload_ok f2 n1) as [f3 ->]. cbn [bind].
  destruct (discard_upload_ok f3 n2) as [f4 ->]. cbn [bind].
  eexists. split; reflexivity.
Qed.

(** At or below the threshold: published, one row added with the score. *)
Lemma add_news_publishes (r : request) (w : world) :
  valid_submission secure_filename r = true ->
  (improved_fake_score (strip (form_content r)) (strip (form_title r))
   <= FAKE_THRESHOLD)%Q ->
  exists w' row,
    add_news UPLOAD_FOLDER secure_filename r w
    = Ok (Published (improved_fake_score (strip (form_content r))
                                         (strip (form_title r))), w')
    /\ db w' = db w ++ [row]
    /\ fake_score row = improved_fake_score (strip (form_content r))
                                            (strip (form_title r))
    /\ title row = strip (form_title r)
    /\ content row = strip (form_content r).
Proof.
  intros Hv Hle.
  destruct (add_news_reaches_scoring r w Hv) as (n1 & n2 & f2 & ->).
  cbv zeta. apply Qltb_ge in Hle. rewrite Hle.
  eexists. eexists. split; [reflexivity|].
  cbn [db insert_row]. split; [reflexivity|].
  cbn [fake_score title content]. repeat split.
Qed.

(** C1: a submission that reaches the scoring step is rejected exactly when
    its score is strictly above the threshold; a score equal to the
    threshold is accepted, and an accepted submission adds one row that
    carries the score. *)
Theorem submission_rejected_iff_over_threshold (r : request) (w : world) :
  valid_submission secure_filename r = true ->
  let ttl := strip (form_title r) in
  let body := strip (form_content r) in
  let score := improved_fake_score body ttl in
  exists o w',
    add_news UPLOAD_FOLDER secure_filename r w = Ok (o, w')
    /\ (o = Rejected score <-> (FAKE_THRESHOLD < score)%Q)
    /\ ((FAKE_THRESHOLD < score)%Q -> db w' = db w)
    /\ ((score <= FAKE_THRESHOLD)%Q ->
        o = Published score
        /\ exists row, db w' = db w ++ [row]
                       /\ fake_score row = score
                       /\ title row = ttl
                       /\ content row = body).
Proof.
  intros Hv ttl body score.
  destruct (Qlt_le_dec FAKE_THRESHOLD score) as [Hlt|Hle].
  - destruct (add_news_rejects r w Hv Hlt) as (w' & Hrun & Hdb).
    exists (Rejected score), w'. split; [exact Hrun|].
    split; [tauto|]. split; [intros _; exact Hdb|].
    intro Hle. exfalso. exact (Qlt_not_le _ _ Hlt Hle).
  - destruct (add_news_publishes r w Hv Hle) as (w' & row & Hrun & Hrow).
    exists (Published score), w'. split; [exact Hrun|].
    split; [|split].
    + split; [discriminate|].
      intro Hlt. exfalso. exact (Qlt_not_le _ _ Hlt Hle).
    + intro Hlt. exfalso. exact (Qlt_not_le _ _ Hlt Hle).
    + intros _. split; [reflexivity|]. exists row. exact Hrow.
Qed.

End SubmissionFacts.

Lemma submission_rejected_iff_over_threshold_witness :
  @valid_submission basic_tables keep_filename
                    (text_only_request TITLE_A SHORT_BODY) = true
  /\ exists o w',
      @add_news basic_tables SAMPLE_FOLDER keep_filename
                (text_only_request TITLE_A SHORT_BODY) EMPTY_WORLD = Ok (o, w')
      /\ (o = Rejected (@improved_fake_score basic_tables SHORT_BODY TITLE_A)
          <-> (FAKE_THRESHOLD
               < @improved_fake_score basic_tables SHORT_BODY TITLE_A)%Q).
Proof.
  assert (Hv : @valid_submission basic_tables keep_filename
                 (text_only_request TITLE_A SHORT_BODY) = true)
    by (vm_compute; reflexivity).
  split; [exact Hv|].
  destruct (@submission_rejected_iff_over_threshold
              basic_tables SAMPLE_FOLDER keep_filename
              (text_only_request TITLE_A SHORT_BODY) EMPTY_WORLD Hv)
    as (o & w' & Hrun & Hrej & _).
  exists o, w'. split; [exact Hrun|].
  assert (Hb : strip (form_content (text_only_request TITLE_A SHORT_BODY))
               = SHORT_BODY) by (vm_compute; reflexivity).
  assert (Ht : strip (form_title (text_only_request TITLE_A SHORT_BODY))
               = TITLE_A) by (vm_compute; reflexivity).
  rewrite Hb, Ht in Hrej. exact Hrej.
Defined.



(** ** Scenario A *)

Section ScoreSteps.
Context {U : UnicodeTables}.





Lemma count_char_nonneg (c : char) (a : pystr) : 0 <= count_char c a.
Proof. unfold count_char. lia. Qed.





End ScoreSteps.




Section ScenarioA.
#[local] Existing Instance basic_tables.


















End ScenarioA.

(** ** White space and the basic tables *)





(** ** The space patterns, in closed form *)


Section PatternForms.
Context {U : UnicodeTables}.









End PatternForms.

(** ** Appending an instance of a space pattern *)


Section AppendedFlag.
#[local] Existing Instance basic_tables.



















End AppendedFlag.

(** ** The moon phase *)

Lemma Qfloor_unique (q : Q) (z : Z) :
  (inject_Z z <= q)%Q -> (q < inject_Z z + 1)%Q -> Qfloor q = z.
Proof.
  intros Hlo Hhi.
  pose proof (Qfloor_le q) as H1. pose proof (Qlt_floor q) as H2.
  rewrite inject_Z_plus in H2. change (inject_Z 1) with 1%Q in H2.
  assert (Ha : (inject_Z (Qfloor q) < inject_Z (z + 1))%Q).
  { rewrite inject_Z_plus. change (inject_Z 1) with 1%Q. qlra. }
  assert (Hb : (inject_Z z < inject_Z (Qfloor q + 1))%Q).
  { rewrite inject_Z_plus. change (inject_Z 1) with 1%Q. qlra. }
  rewrite <- Zlt_Qlt in Ha, Hb. lia.
Qed.

Lemma Qfrac_range (x : Q) : (0 <= Qfrac x /\ Qfrac x < 1)%Q.
Proof.
  unfold Qfrac. pose proof (Qfloor_le x) as H1. pose proof (Qlt_floor x) as H2.
  rewrite inject_Z_plus in H2. change (inject_Z 1) with 1%Q in H2.
  split; qlra.
Qed.

Lemma cycle_of_frac (t : Z) :
  (cycle_of t == Qfrac (elapsed_days t / SYNODIC))%Q.
Proof.
  unfold cycle_of, Qmod, Qfrac. field. discriminate.
Qed.

Lemma cycle_of_range (t : Z) : (0 <= cycle_of t /\ cycle_of t < 1)%Q.
Proof.
  pose proof (Qfrac_range (elapsed_days t / SYNODIC)) as H.
  rewrite <- cycle_of_frac in H. exact H.
Qed.


Lemma py_int_nonneg (x : Q) : (0 <= x)%Q -> py_int x = Qfloor x.
Proof.
  intro H. unfold py_int. destruct x as [n d]. cbn [Qnum Qden Qfloor].
  apply Z.quot_div_nonneg; [|lia].
  unfold Qle in H. cbn in H. lia.
Qed.

Lemma idx_of_floor (c : Q) :
  (0 <= c)%Q -> idx_of c = Qfloor (c * 8 + (1 # 2)) mod 8.
Proof.
  intro H. unfold idx_of. rewrite py_int_nonneg; [reflexivity | qlra].
Qed.

Lemma SYNODIC_TD_value : SYNODIC_TD = 2551442876899.
Proof. reflexivity. Qed.

(** One [SYNODIC_TD] later the elapsed time, counted in periods, is one
    more, less [SHIFT]. *)
Lemma elapsed_after_period (t : Z) :
  (elapsed_days (t + SYNODIC_TD) / SYNODIC
   == elapsed_days t / SYNODIC + 1 - SHIFT)%Q.
Proof.
  unfold elapsed_days, total_seconds.
  replace (t + SYNODIC_TD - EPOCH) with ((t - EPOCH) + SYNODIC_TD) by lia.
  rewrite inject_Z_plus. rewrite SYNODIC_TD_value.
  unfold SYNODIC, SHIFT. field.
Qed.

Lemma Qfrac_after_shift (x x' d : Q) :
  (0 <= d)%Q -> (d < 1)%Q ->
  (x' == x + 1 - d)%Q ->
  (Qfrac x' == Qfrac x - d)%Q \/ (Qfrac x' == Qfrac x - d + 1)%Q.
Proof.
  intros Hd0 Hd1 Hx'.
  pose proof (Qfrac_range x) as [Hf0 Hf1]. unfold Qfrac in *.
  destruct (Qlt_le_dec (x - inject_Z (Qfloor x)) d) as [Hlt|Hge].
  - right.
    assert (E : Qfloor x' = Qfloor x) by (apply Qfloor_unique; qlra).
    rewrite E. qlra.
  - left.
    assert (E : Qfloor x' = Qfloor x + 1).
    { apply Qfloor_unique; rewrite inject_Z_plus;
        change (inject_Z 1) with 1%Q; qlra. }
    rewrite E, inject_Z_plus. change (inject_Z 1) with 1%Q. qlra.
Qed.

Lemma cycle_after_period (t : Z) :
  (cycle_of (t + SYNODIC_TD) == cycle_of t - SHIFT)%Q
  \/ (cycle_of (t + SYNODIC_TD) == cycle_of t - SHIFT + 1)%Q.
Proof.
  rewrite !cycle_of_frac.
  apply Qfrac_after_shift; [discriminate | reflexivity|].
  apply elapsed_after_period.
Qed.

(** Away from the bucket boundaries the phase index is the same one
    period later. *)
Lemma idx_after_period (t : Z) :
  clear_of_boundary MARGIN t ->
  idx_of (cycle_of (t + SYNODIC_TD)) = idx_of (cycle_of t).
Proof.
  intros (k & Hlo & Hhi). unfold bucket_position, MARGIN in *.
  pose proof (cycle_of_range t) as [Hc0 _].
  pose proof (cycle_of_range (t + SYNODIC_TD)) as [Hc0' _].
  rewrite !idx_of_floor by assumption.
  assert (Ek : Qfloor (cycle_of t * 8 + (1 # 2)) = k)
    by (apply Qfloor_unique; qlra).
  rewrite Ek.
  destruct (cycle_after_period t) as [E|E]; unfold SHIFT in E.
  - assert (Ek' : Qfloor (cycle_of (t + SYNODIC_TD) * 8 + (1 # 2)) = k)
      by (apply Qfloor_unique; qlra).
    rewrite Ek'. reflexivity.
  - assert (Ek' : Qfloor (cycle_of (t + SYNODIC_TD) * 8 + (1 # 2)) = k + 1 * 8).
    { apply Qfloor_unique; rewrite inject_Z_plus;
        change (inject_Z (1 * 8)) with 8%Q; qlra. }
    rewrite Ek'. apply Z_mod_plus_full.
Qed.

(** ** Illumination *)

Lemma PI_gt_3 : (3 < PI)%R.
Proof. pose proof PI2_3_2. rlra. Qed.

Lemma abs_sin_le (x : R) : (Rabs (sin x) <= Rabs x)%R.
Proof.
  assert (Hpos : forall y : R, (0 < y)%R -> (Rabs (sin y) <= y)%R).
  { intros y Hy. pose proof (sin_lt_x y Hy) as Hup.
    pose proof (SIN_bound y) as [Hlo _]. pose proof PI_gt_3 as Hpi.
    apply Rabs_le. split; [|rlra].
    destruct (Rle_dec y 1) as [Hy1|Hy1].
    - pose proof (sin_ge_0 y ltac:(rlra) ltac:(rlra)). rlra.
    - rlra. }
  destruct (Rtotal_order x 0) as [Hx|[Hx|Hx]].
  - rewrite <- (Ropp_involutive x) at 1.
    rewrite sin_neg, Rabs_Ropp, (Rabs_left x Hx).
    apply Hpos. rlra.
  - subst x. rewrite sin_0. apply Rle_refl.
  - rewrite (Rabs_right x) by rlra. apply Hpos. exact Hx.
Qed.

Lemma cos_lipschitz (p q : R) : (Rabs (cos p - cos q) <= Rabs (p - q))%R.
Proof.
  rewrite form2.
  replace (-2 * sin ((p - q) / 2) * sin ((p + q) / 2))%R
    with (- (2 * sin ((p - q) / 2)) * sin ((p + q) / 2))%R by ring.
  rewrite Rabs_mult, Rabs_Ropp, Rabs_mult.
  pose proof (abs_sin_le ((p - q) / 2)) as H1.
  assert (H2 : (Rabs (sin ((p + q) / 2)) <= 1)%R).
  { apply Rabs_le. pose proof (SIN_bound ((p + q) / 2)). rlra. }
  assert (H3 : (Rabs ((p - q) / 2) = Rabs (p - q) / 2)%R).
  { unfold Rdiv. rewrite Rabs_mult. f_equal.
    apply Rabs_right. rlra. }
  rewrite H3 in H1.
  rewrite (Rabs_right 2) by rlra.
  pose proof (Rabs_pos (sin ((p - q) / 2))) as H4.
  pose proof (Rabs_pos (sin ((p + q) / 2))) as H5.
  apply Rle_trans with (2 * Rabs (sin ((p - q) / 2)) * 1)%R.
  - apply Rmult_le_compat_l; [rlra | exact H2].
  - rlra.
Qed.

Lemma Rabs_le_between (a b : R) : (Rabs a <= b)%R -> (- b <= a <= b)%R.
Proof.
  unfold Rabs. destruct (Rcase_abs a); intro H; rlra.
Qed.

Lemma round_half_even_close (x : R) :
  (Rabs (IZR (round_half_even x) - x) <= 1 / 2)%R.
Proof.
  unfold round_half_even.
  pose proof (base_Int_part x) as [H1 H2].
  destruct (Rlt_dec (x - IZR (Int_part x)) (1 / 2)) as [Ha|Ha].
  - apply Rabs_le. rlra.
  - assert (Hup : (Rabs (IZR (Int_part x + 1) - x) <= 1 / 2)%R).
    { rewrite plus_IZR. apply Rabs_le. rlra. }
    destruct (Rlt_dec (1 / 2) (x - IZR (Int_part x))) as [Hb|Hb]; [exact Hup|].
    destruct (Z.even (Int_part x)); [|exact Hup].
    apply Rabs_le. rlra.
Qed.

(** Percentages whose tenths differ by less than one round to values at
    most one tenth apart. *)
Lemma round1_close (u v : R) :
  (Rabs (u * 10 - v * 10) < 1)%R ->
  (Rabs (round1 u - round1 v) <= 1 / 10)%R.
Proof.
  intro H. unfold round1.
  pose proof (round_half_even_close (u * 10)) as Hu.
  pose proof (round_half_even_close (v * 10)) as Hv.
  set (a := round_half_even (u * 10)) in *.
  set (b := round_half_even (v * 10)) in *.
  apply Rabs_le_between in Hu. apply Rabs_le_between in Hv.
  apply Rabs_def2 in H.
  assert (Hab : -1 <= a - b <= 1).
  { assert (Hlt : (IZR (a - b) < IZR 2)%R) by (rewrite minus_IZR; rlra).
    assert (Hgt : (IZR (-2) < IZR (a - b))%R) by (rewrite minus_IZR; rlra).
    apply lt_IZR in Hlt, Hgt. lia. }
  assert (Hr : (-1 <= IZR a - IZR b <= 1)%R).
  { rewrite <- minus_IZR. split; apply IZR_le; lia. }
  apply Rabs_le. rlra.
Qed.


Lemma shift_small :
  (0 <= Q2R SHIFT)%R /\ (Q2R SHIFT * 4000 < 1)%R.
Proof.
  unfold SHIFT, Q2R. cbn [Qnum Qden]. split; rlra.
Qed.

(** One period later the illumination, in tenths of a percent, has moved
    by less than one. *)
Lemma illum_after_period (t : Z) :
  (Rabs (illum_of (cycle_of (t + SYNODIC_TD)) * 100 * 10
         - illum_of (cycle_of t) * 100 * 10) < 1)%R.
Proof.
  pose proof shift_small as [Hs0 Hs1]. pose proof PI_4 as Hpi4.
  pose proof PI_RGT_0 as Hpi0.
  set (c := cycle_of t). set (c' := cycle_of (t + SYNODIC_TD)).
  assert (Hcos : (cos (2 * PI * Q2R c')
                  = cos (2 * PI * (Q2R c - Q2R SHIFT)))%R).
  { destruct (cycle_after_period t) as [E|E]; fold c c' in E;
      apply Qeq_eqR in E; rewrite E.
    - rewrite Q2R_minus. reflexivity.
    - rewrite Q2R_plus, Q2R_minus.
      replace (2 * PI * (Q2R c - Q2R SHIFT + Q2R 1))%R
        with (2 * PI * (Q2R c - Q2R SHIFT) + 2 * INR 1 * PI)%R.
      + apply cos_period.
      + unfold Q2R at 5. cbn [Qnum Qden INR]. field. }
  unfold illum_of. rewrite Hcos.
  pose proof (cos_lipschitz (2 * PI * Q2R c)
                            (2 * PI * (Q2R c - Q2R SHIFT))) as Hl.
  replace (2 * PI * Q2R c - 2 * PI * (Q2R c - Q2R SHIFT))%R
    with (2 * PI * Q2R SHIFT)%R in Hl by ring.
  rewrite (Rabs_right (2 * PI * Q2R SHIFT)) in Hl by nra.
  apply Rabs_le_between in Hl.
  apply Rabs_def1; nra.
Qed.



(** C9, amended: for every instant that is at least a billionth of a
    bucket (about 0.3 ms) away from every bucket boundary, the sample one
    synodic period later, the period being the [timedelta] of 29.530588853
    days, has the same phase name and an illumination percentage within
    0.1 of a point. *)
Theorem phase_one_period_later (clock t : Z) :
  clear_of_boundary MARGIN t ->
  let a := moon_phase_info clock (Some t) in
  let b := moon_phase_info clock (Some (t + SYNODIC_TD)) in
  name b = name a
  /\ (Rabs (illum_pct b - illum_pct a) <= 1 / 10)%R.
Proof.
  intros Hclear a b. unfold a, b, moon_phase_info.
  cbn [name illum_pct]. split.
  - rewrite (idx_after_period t Hclear). reflexivity.
  - apply round1_close.
    exact (illum_after_period t).
Qed.

Lemma phase_one_period_later_witness :
  clear_of_boundary MARGIN EPOCH
  /\ name (moon_phase_info 0 (Some (EPOCH + SYNODIC_TD)))
     = name (moon_phase_info 0 (Some EPOCH)).
Proof.
  assert (H : clear_of_boundary MARGIN EPOCH).
  { exists 0. split; vm_compute; discriminate. }
  split; [exact H|].
  exact (proj1 (phase_one_period_later 0 EPOCH H)).
Defined.

(** C9, as stated, fails: 797325.899031 s after the epoch the cycle is
    exactly 5/16 and the name is the fourth of the list; one synodic
    period later (2551442876899 microseconds) the name is the third. *)
Lemma phase_name_differs_one_period_later :
  (cycle_of BOUNDARY_INSTANT == 5 # 16)%Q
  /\ SYNODIC_TD = 2551442876899
  /\ name (moon_phase_info 0 (Some BOUNDARY_INSTANT)) = py "Растущая луна"
  /\ name (moon_phase_info 0 (Some (BOUNDARY_INSTANT + SYNODIC_TD)))
     = py "Первая четверть"
  /\ name (moon_phase_info 0 (Some (BOUNDARY_INSTANT + SYNODIC_TD)))
     <> name (moon_phase_info 0 (Some BOUNDARY_INSTANT)).
Proof.
  unfold moon_phase_info. cbn [name].
  split; [vm_compute; reflexivity|].
  split; [reflexivity|].
  split; [vm_compute; reflexivity|].
  split; [vm_compute; reflexivity|].
  vm_compute. discriminate.
Qed.

(* ================================================================== *)
(** * Further properties of the scorers                                *)
(* ================================================================== *)

Lemma clamp_mono (x y : Q) :
  (x <= y)%Q -> (Qmax 0 (Qmin 100 x) <= Qmax 0 (Qmin 100 y))%Q.
Proof.
  intro H. apply Q.max_le_compat_l. apply Q.min_le_compat_l. exact H.
Qed.

Lemma if_add_le (b : bool) (s s' k k' : Q) :
  (s <= s')%Q -> (k <= k')%Q -> (0 <= k')%Q ->
  ((if b then s + k else s) <= (if b then s' + k' else s'))%Q.
Proof. intros H1 H2 H3. destruct b; qlra. Qed.

Lemma fold_hits_le {A : Type} (f : A -> bool) (k k' : Q) (l : list A) :
  (k <= k')%Q -> (0 <= k')%Q ->
  forall s s' : Q,
    (s <= s')%Q ->
    (fold_left (fun sc w => if f w then sc + k else sc) l s
     <= fold_left (fun sc w => if f w then sc + k' else sc) l s')%Q.
Proof.
  intros Hk Hk'. induction l as [|x l IH]; intros s s' Hs; simpl.
  - exact Hs.
  - apply IH. apply if_add_le; assumption.
Qed.

Lemma Qmin_scaled_le (q a a' b b' : Q) :
  (0 <= q)%Q -> (a <= a')%Q -> (b <= b')%Q ->
  (Qmin (q * a) b <= Qmin (q * a') b')%Q.
Proof.
  intros Hq Haa Hbb. apply Q.min_glb.
  - apply Qle_trans with (q * a)%Q; [apply Q.le_min_l|].
    rewrite !(Qmult_comm q). apply Qmult_le_compat_r; assumption.
  - apply Qle_trans with b; [apply Q.le_min_r | exact Hbb].
Qed.

Lemma count_as_Q_nonneg (c : Z) (s : pystr) : (0 <= inject_Z (count_char c s))%Q.
Proof.
  change 0%Q with (inject_Z 0). rewrite <- Zle_Qle. apply count_char_nonneg.
Qed.

Lemma caps_ratio_nonneg {U : UnicodeTables} (words : list pystr) :
  (0 <= inject_Z (caps_count words) / inject_Z (Z.max 1 (word_count words)))%Q.
Proof.
  apply Qle_shift_div_l.
  - change 0%Q with (inject_Z 0). rewrite <- Zlt_Qlt. lia.
  - rewrite Qmult_0_l. change 0%Q with (inject_Z 0). rewrite <- Zle_Qle.
    unfold caps_count. lia.
Qed.

Section ScorerComparison.
Context {U : UnicodeTables}.

(** X1: the improved scorer never scores a text below the baseline scorer:
    every weight and cap of the baseline is at most the improved one, and
    the improved scorer only adds the clickbait signal. *)
Theorem improved_at_least_baseline (text title : pystr) :
  (fake_score_heuristic text title <= improved_fake_score text title)%Q.
Proof.
  unfold fake_score_heuristic, improved_fake_score.
  destruct text as [|c0 text]; [apply Qle_refl|].
  cbv zeta. unfold combine, raw_score. cbv zeta.
  set (t := strip (title ++ [10] ++ c0 :: text)).
  set (words := re_findall_plus WORD_CLASS t).
  apply clamp_mono.
  unfold add_clickbait.
  match goal with
  | |- (?x <= if ?b then ?y + 7 else ?y)%Q =>
    apply Qle_trans with y; [|destruct b; qlra]
  end.
  unfold add_length. cbv zeta.
  apply if_add_le; [|discriminate|discriminate].
  apply if_add_le; [|discriminate|discriminate].
  unfold add_caps_ratio. fold words.
  assert (Hpre :
    (fold_left
       (fun score pat => if re_search true pat t then score + 15 else score)
       SPACE_FAKE_TELLS
       (fold_left
          (fun score w =>
             if contains (uni_lower w) (uni_lower t) then score + 8 else score)
          SENSATIONAL 0)
     <= add_space_tells t (add_sensational t 0))%Q).
  { unfold add_space_tells, add_sensational.
    apply fold_hits_le; [discriminate|discriminate|].
    apply fold_hits_le; [discriminate|discriminate|apply Qle_refl]. }
  assert (Hurl :
    ((if negb (re_search false URL_REGEX t)
      then fold_left
             (fun score pat => if re_search true pat t then score + 15 else score)
             SPACE_FAKE_TELLS
             (fold_left
                (fun score w =>
                   if contains (uni_lower w) (uni_lower t)
                   then score + 8 else score)
                SENSATIONAL 0) + 12
      else fold_left
             (fun score pat => if re_search true pat t then score + 15 else score)
             SPACE_FAKE_TELLS
             (fold_left
                (fun score w =>
                   if contains (uni_lower w) (uni_lower t)
                   then score + 8 else score)
                SENSATIONAL 0))
     <= add_no_url t (add_space_tells t (add_sensational t 0)))%Q).
  { unfold add_no_url. apply if_add_le; [exact Hpre | apply Qle_refl | discriminate]. }
  revert Hurl. generalize (add_no_url t (add_space_tells t (add_sensational t 0))).
  match goal with
  | |- forall q, (?x <= q)%Q -> _ => generalize x
  end.
  intros sb si Hs.
  assert (Hp :
    (sb + Qmin (inject_Z (count_char (ch "!") t) * (3 # 2)) 15
        + Qmin (inject_Z (count_char (ch "?") t) * (6 # 5)) 12
     <= add_punctuation t si)%Q).
  { unfold add_punctuation. cbv zeta.
    pose proof (Qmin_scaled_le (inject_Z (count_char (ch "!") t))
                               (3 # 2) 2 15 20
                               (count_as_Q_nonneg _ _)
                               ltac:(discriminate) ltac:(discriminate)) as H1.
    pose proof (Qmin_scaled_le (inject_Z (count_char (ch "?") t))
                               (6 # 5) (3 # 2) 12 15
                               (count_as_Q_nonneg _ _)
                               ltac:(discriminate) ltac:(discriminate)) as H2.
    qlra. }
  revert Hp. generalize (add_punctuation t si).
  match goal with
  | |- forall q, (?x <= q)%Q -> _ => generalize x
  end.
  clear. intros pb pi Hp.
  destruct words as [|w0 words]; [exact Hp|].
  pose proof (Qmin_scaled_le _ 100 120 20 25
                             (caps_ratio_nonneg (w0 :: words))
                             ltac:(discriminate) ltac:(discriminate)) as H.
  qlra.
Qed.

End ScorerComparison.

Lemma lstrip_blank (s : pystr) : forallb isspace s = true -> lstrip s = [].
Proof.
  induction s as [|c s IH]; simpl; [reflexivity|].
  intro H. apply andb_prop in H. destruct H as [Hc Hs].
  rewrite Hc. apply IH. exact Hs.
Qed.

Lemma forallb_rev {A : Type} (f : A -> bool) (l : list A) :
  forallb f l = true -> forallb f (rev l) = true.
Proof.
  rewrite !forallb_forall. intros H x Hx. apply H. apply in_rev. exact Hx.
Qed.

Lemma strip_blank (s : pystr) : forallb isspace s = true -> strip s = [].
Proof.
  intro H. unfold strip, rstrip.
  rewrite (lstrip_blank (rev s)) by (apply forallb_rev; exact H).
  reflexivity.
Qed.

(** White space at the end of a text does not survive the stripping. *)
Lemma rstrip_app_blank (x ws : pystr) :
  forallb isspace ws = true -> rstrip (x ++ ws) = rstrip x.
Proof.
  intro H. unfold rstrip. rewrite rev_app_distr, lstrip_app.
  rewrite (lstrip_blank (rev ws)) by (apply forallb_rev; exact H).
  reflexivity.
Qed.

(** Nor does white space at the start. *)
Lemma lstrip_blank_app (ws x : pystr) :
  forallb isspace ws = true -> lstrip (ws ++ x) = lstrip x.
Proof.
  intro H. rewrite lstrip_app, (lstrip_blank ws H). reflexivity.
Qed.

Lemma strip_around (ws1 x ws2 : pystr) :
  forallb isspace ws1 = true -> forallb isspace ws2 = true ->
  strip (ws1 ++ x ++ ws2) = strip x.
Proof.
  intros H1 H2. unfold strip.
  rewrite app_assoc, (rstrip_app_blank _ ws2 H2).
  unfold rstrip. rewrite rev_app_distr.
  destruct (lstrip_split (rev x)) as (d & Hd & Hs).
  rewrite lstrip_app.
  destruct (lstrip (rev x)) as [|y l] eqn:E.
  - rewrite (lstrip_blank (rev ws1)) by (apply forallb_rev; exact H1).
    reflexivity.
  - rewrite rev_app_distr, rev_involutive. apply lstrip_blank_app. exact H1.
Qed.

Section BlankText.
Context {U : UnicodeTables}.

(** X2: white space after the body or before the title never changes the
    score, for either scorer, as long as the body is not empty. *)
Theorem score_ignores_outer_space (text title ws1 ws2 : pystr) :
  text <> [] ->
  forallb isspace ws1 = true ->
  forallb isspace ws2 = true ->
  improved_fake_score (text ++ ws2) (ws1 ++ title) = improved_fake_score text title
  /\ fake_score_heuristic (text ++ ws2) (ws1 ++ title)
     = fake_score_heuristic text title.
Proof.
  intros Hne H1 H2.
  assert (Hc : strip ((ws1 ++ title) ++ [10] ++ text ++ ws2)
               = strip (title ++ [10] ++ text)).
  { rewrite <- (strip_around ws1 (title ++ [10] ++ text) ws2 H1 H2).
    rewrite <- !app_assoc. reflexivity. }
  unfold improved_fake_score, fake_score_heuristic, combine.
  destruct text as [|c0 text]; [congruence|].
  rewrite <- app_comm_cons. rewrite app_comm_cons, Hc.
  split; reflexivity.
Qed.

End BlankText.

Lemma score_ignores_outer_space_witness :
  SHORT_BODY <> []
  /\ @improved_fake_score basic_tables (SHORT_BODY ++ py "  ") (py " " ++ TITLE_A)
     = @improved_fake_score basic_tables SHORT_BODY TITLE_A.
Proof.
  assert (H : SHORT_BODY <> []) by (vm_compute; discriminate).
  split; [exact H|].
  exact (proj1 (@score_ignores_outer_space basic_tables SHORT_BODY TITLE_A
                  (py " ") (py "  ") H eq_refl eq_refl)).
Defined.

(** X3: a body of white space only is not the empty body: with a blank or
    empty title the combined text is empty and the improved scorer answers
    23 (no link, short text, short words), the baseline 22. *)
Theorem blank_body_scores_23 (text title : pystr) :
  text <> [] ->
  forallb isspace text = true ->
  forallb isspace title = true ->
  (@improved_fake_score basic_tables text title == 23)%Q
  /\ (@fake_score_heuristic basic_tables text title == 22)%Q.
Proof.
  intros Hne Ht Hti.
  assert (Hc : strip (title ++ [10] ++ text) = []).
  { apply strip_blank. rewrite !forallb_app, Hti, Ht. reflexivity. }
  unfold improved_fake_score, fake_score_heuristic, combine.
  destruct text as [|c0 text]; [congruence|].
  rewrite Hc. split; vm_compute; reflexivity.
Qed.

Lemma blank_body_scores_23_witness :
  py "   " <> []
  /\ (@improved_fake_score basic_tables (py "   ") [] == 23)%Q.
Proof.
  assert (H : py "   " <> []) by (vm_compute; discriminate).
  split; [exact H|].
  exact (proj1 (blank_body_scores_23 (py "   ") [] H eq_refl eq_refl)).
Defined.

(* ================================================================== *)
(** * Further properties of the purge and of the routes                *)
(* ================================================================== *)

Lemma pystr_eqb_eq (a b : pystr) : pystr_eqb a b = true <-> a = b.
Proof.
  unfold pystr_eqb. destruct (list_eq_dec Z.eq_dec a b); split; congruence.
Qed.

Lemma pystr_eqb_refl (a : pystr) : pystr_eqb a a = true.
Proof. apply pystr_eqb_eq. reflexivity. Qed.

Lemma pystr_eqb_sym (a b : pystr) : pystr_eqb a b = pystr_eqb b a.
Proof.
  destruct (pystr_eqb a b) eqn:E1, (pystr_eqb b a) eqn:E2; try reflexivity.
  - apply pystr_eqb_eq in E1. subst. rewrite pystr_eqb_refl in E2. discriminate.
  - apply pystr_eqb_eq in E2. subst. rewrite pystr_eqb_refl in E1. discriminate.
Qed.

Lemma mem_In (x : pystr) (l : list pystr) : mem x l = true <-> In x l.
Proof.
  unfold mem. rewrite existsb_exists. split.
  - intros (y & Hy & E). apply pystr_eqb_eq in E. subst. exact Hy.
  - intro H. exists x. split; [exact H | apply pystr_eqb_refl].
Qed.

Lemma mem_app (x : pystr) (a b : list pystr) :
  mem x (a ++ b) = mem x a || mem x b.
Proof. unfold mem. apply existsb_app. Qed.

Lemma filter_all {A : Type} (f : A -> bool) (l : list A) :
  (forall x, In x l -> f x = true) -> filter f l = l.
Proof.
  induction l as [|x l IH]; intro H; simpl; [reflexivity|].
  rewrite (H x (or_introl eq_refl)). f_equal.
  apply IH. intros y Hy. apply H. right. exact Hy.
Qed.

Lemma filter_filter {A : Type} (f g : A -> bool) (l : list A) :
  filter g (filter f l) = filter (fun x => f x && g x) l.
Proof.
  induction l as [|x l IH]; simpl; [reflexivity|].
  destruct (f x); simpl; [|exact IH].
  destruct (g x); [f_equal|]; exact IH.
Qed.

Section FolderFacts.
Variable UPLOAD_FOLDER : pystr.

(** The paths one optional name stands for. *)
Lemma remove_if_exists_files (f : filesystem) (name : option pystr) :
  exists f',
    remove_if_exists UPLOAD_FOLDER f name = Ok f'
    /\ locked f' = locked f
    /\ files f'
       = filter (fun p =>
                   negb (removable
                           (if truthy name
                            then [path_join UPLOAD_FOLDER (name_of name)] else [])
                           f p))
                (files f).
Proof.
  unfold remove_if_exists. destruct (truthy name).
  - set (fp := path_join UPLOAD_FOLDER (name_of name)).
    unfold os_path_exists, os_remove.
    destruct (mem fp (files f)) eqn:Ex; cbn [negb].
    + destruct (mem fp (locked f)) eqn:El; cbn [try_pass].
      * exists f. split; [reflexivity|]. split; [reflexivity|].
        symmetry. apply filter_all. intros x _. unfold removable.
        cbn [mem existsb]. rewrite orb_false_r.
        destruct (pystr_eqb x fp) eqn:E; [|reflexivity].
        apply pystr_eqb_eq in E. subst x. rewrite El. reflexivity.
      * eexists. split; [reflexivity|]. split; [reflexivity|].
        cbn [files]. apply filter_ext_in. intros x _.
        unfold removable. cbn [mem existsb]. rewrite orb_false_r.
        rewrite (pystr_eqb_sym fp x).
        destruct (pystr_eqb x fp) eqn:E; [|reflexivity].
        apply pystr_eqb_eq in E. subst x. rewrite El. reflexivity.
    + cbn [try_pass]. exists f. split; [reflexivity|]. split; [reflexivity|].
      symmetry. apply filter_all. intros x Hx. unfold removable.
      cbn [mem existsb]. rewrite orb_false_r.
      destruct (pystr_eqb x fp) eqn:E; [|reflexivity].
      apply pystr_eqb_eq in E. subst x.
      apply mem_In in Hx. congruence.
  - exists f. split; [reflexivity|]. split; [reflexivity|].
    symmetry. apply filter_all. intros x _. reflexivity.
Qed.

Lemma removable_app (a b : list pystr) (f : filesystem) (p : pystr) :
  negb (removable a f p) && negb (removable b f p)
  = negb (removable (a ++ b) f p).
Proof.
  unfold removable. rewrite mem_app.
  destruct (mem p a), (mem p b), (mem p (locked f)); reflexivity.
Qed.

Lemma removable_locked (t : list pystr) (f f' : filesystem) (p : pystr) :
  locked f' = locked f -> removable t f' p = removable t f p.
Proof. intro H. unfold removable. rewrite H. reflexivity. Qed.

Lemma cleanup_row_files (f : filesystem) (r : news_row) :
  exists f',
    cleanup_row UPLOAD_FOLDER f r = Ok f'
    /\ locked f' = locked f
    /\ files f'
       = filter (fun p => negb (removable (media_paths UPLOAD_FOLDER [r]) f p))
                (files f).
Proof.
  unfold cleanup_row.
  destruct (remove_if_exists_files f (image r)) as (f1 & -> & Hl1 & Hf1).
  cbn [bind].
  destruct (remove_if_exists_files f1 (audio r)) as (f2 & -> & Hl2 & Hf2).
  exists f2. split; [reflexivity|]. split; [congruence|].
  rewrite Hf2, Hf1, filter_filter. apply filter_ext. intro p.
  rewrite (removable_locked _ f f1 p Hl1), removable_app.
  unfold media_paths. cbn [flat_map]. rewrite !app_nil_r. reflexivity.
Qed.

Lemma cleanup_rows_files (rows : list news_row) :
  forall f,
    exists f',
      cleanup_rows UPLOAD_FOLDER rows f = Ok f'
      /\ locked f' = locked f
      /\ files f'
         = filter (fun p => negb (removable (media_paths UPLOAD_FOLDER rows) f p))
                  (files f).
Proof.
  induction rows as [|r rows IH]; intro f.
  - exists f. split; [reflexivity|]. split; [reflexivity|].
    symmetry. apply filter_all. intros x _. reflexivity.
  - cbn [cleanup_rows].
    destruct (cleanup_row_files f r) as (f1 & -> & Hl1 & Hf1). cbn [bind].
    destruct (IH f1) as (f2 & -> & Hl2 & Hf2).
    exists f2. split; [reflexivity|]. split; [congruence|].
    rewrite Hf2, Hf1, filter_filter. apply filter_ext. intro p.
    rewrite (removable_locked _ f f1 p Hl1), removable_app.
    unfold media_paths. cbn [flat_map]. rewrite !app_nil_r. reflexivity.
Qed.

(** X4: after the sweep a file is in the folder iff it was there before and
    is not a removable media file of a purged row: nothing is created,
    files of no purged row stay, and so do files whose removal fails. *)
Theorem sweep_folder_effect (w : world) :
  exists w',
    cleanup_fakes UPLOAD_FOLDER w = Ok w'
    /\ locked (fs w') = locked (fs w)
    /\ forall p,
        In p (files (fs w'))
        <-> In p (files (fs w))
            /\ ~ (In p (media_paths UPLOAD_FOLDER (select_fakes w))
                  /\ ~ In p (locked (fs w))).
Proof.
  assert (Hchar : forall t f p,
             In p (filter (fun p => negb (removable t f p)) (files f))
             <-> In p (files f) /\ ~ (In p t /\ ~ In p (locked f))).
  { intros t f p. rewrite filter_In. unfold removable.
    rewrite negb_true_iff, andb_false_iff, negb_false_iff.
    rewrite <- (mem_In p t), <- (mem_In p (locked f)).
    destruct (mem p t), (mem p (locked f)); intuition congruence. }
  unfold cleanup_fakes.
  destruct (select_fakes w) as [|r rows] eqn:E.
  - exists w. split; [reflexivity|]. split; [reflexivity|].
    intro p. cbn [media_paths flat_map]. tauto.
  - destruct (cleanup_rows_files (r :: rows) (fs w)) as (f' & -> & Hl & Hf).
    cbn [bind]. eexists. split; [reflexivity|]. cbn [fs].
    split; [exact Hl|]. intro p. rewrite Hf. apply Hchar.
Qed.

(** X5: the sweep keeps every row at or below the threshold, in the order
    they had, deletes no other row's data from the table and leaves the id
    counter alone. *)
Theorem sweep_keeps_rows_below_threshold (w : world) :
  exists w',
    cleanup_fakes UPLOAD_FOLDER w = Ok w'
    /\ db w' = filter (fun r => Qle_bool (fake_score r) FAKE_THRESHOLD) (db w)
    /\ last_id w' = last_id w
    /\ forall r, In r (db w) -> (fake_score r <= FAKE_THRESHOLD)%Q -> In r (db w').
Proof.
  destruct (cleanup_fakes_ok UPLOAD_FOLDER w) as (w' & Hrun & Hdb & Hid).
  exists w'. split; [exact Hrun|].
  assert (Hf : db w' = filter (fun r => Qle_bool (fake_score r) FAKE_THRESHOLD)
                              (db w)).
  { rewrite Hdb. unfold delete_fakes. apply filter_ext. intro r.
    unfold over_threshold, Qltb. apply negb_involutive. }
  split; [exact Hf|]. split; [exact Hid|].
  intros r Hin Hle. rewrite Hf. apply filter_In. split; [exact Hin|].
  apply Qle_bool_iff. exact Hle.
Qed.

(** A table without fakes is left as it is, and so is the folder. *)
Lemma sweep_without_fakes (w : world) :
  no_fakes w -> cleanup_fakes UPLOAD_FOLDER w = Ok w.
Proof.
  intro H. unfold cleanup_fakes.
  replace (select_fakes w) with (@nil news_row); [reflexivity|].
  symmetry. unfold select_fakes, no_fakes in *.
  induction (db w) as [|x l IH]; [reflexivity|].
  inversion H as [|? ? Hx Hl]; subst. simpl.
  unfold over_threshold. apply Qltb_ge in Hx. rewrite Hx. apply IH. exact Hl.
Qed.

End FolderFacts.

Section HandlerFacts.
Context {U : UnicodeTables}.
Variable UPLOAD_FOLDER : pystr.
Variable secure_filename : pystr -> pystr.

(** Every way through the handler. *)
Lemma add_news_cases (r : request) (w : world) :
  exists o w',
    add_news UPLOAD_FOLDER secure_filename r w = Ok (o, w')
    /\ ((o = MissingFields /\ w' = w)
        \/ (o = BadImageFormat /\ w' = w)
        \/ (exists n1 f1,
               o = BadAudioFormat
               /\ store_upload UPLOAD_FOLDER secure_filename ALLOWED_IMG
                               (stamp_image r) (file_image r) (fs w)
                  = Some (n1, f1)
               /\ store_upload UPLOAD_FOLDER secure_filename ALLOWED_AUDIO
                               (stamp_audio r) (file_audio r) f1
                  = None
               /\ w' = with_fs w f1)
        \/ (exists n1 f1 n2 f2 f3 f4 s,
               o = Rejected s /\ (FAKE_THRESHOLD < s)%Q
               /\ store_upload UPLOAD_FOLDER secure_filename ALLOWED_IMG
                               (stamp_image r) (file_image r) (fs w)
                  = Some (n1, f1)
               /\ store_upload UPLOAD_FOLDER secure_filename ALLOWED_AUDIO
                               (stamp_audio r) (file_audio r) f1
                  = Some (n2, f2)
               /\ discard_upload UPLOAD_FOLDER f2 n1 = Ok f3
               /\ discard_upload UPLOAD_FOLDER f3 n2 = Ok f4
               /\ w' = with_fs w f4)
        \/ (exists n1 f1 n2 f2 s,
               o = Published s /\ (s <= FAKE_THRESHOLD)%Q
               /\ s = improved_fake_score (strip (form_content r))
                                          (strip (form_title r))
               /\ store_upload UPLOAD_FOLDER secure_filename ALLOWED_IMG
                               (stamp_image r) (file_image r) (fs w)
                  = Some (n1, f1)
               /\ store_upload UPLOAD_FOLDER secure_filename ALLOWED_AUDIO
                               (stamp_audio r) (file_audio r) f1
                  = Some (n2, f2)
               /\ w' = insert_row w f2 r (strip (form_title r))
                                  (strip (form_content r))
                                  (strip (form_author r)) n1 n2 s)).
Proof.
  unfold add_news.
  destruct (is_empty (strip (form_title r)) || is_empty (strip (form_content r))).
  { eexists. eexists. split; [reflexivity|]. left. split; reflexivity. }
  destruct (store_upload UPLOAD_FOLDER secure_filename ALLOWED_IMG
                         (stamp_image r) (file_image r) (fs w))
    as [[n1 f1]|] eqn:E1.
  2:{ eexists. eexists. split; [reflexivity|]. right. left. split; reflexivity. }
  destruct (store_upload UPLOAD_FOLDER secure_filename ALLOWED_AUDIO
                         (stamp_audio r) (file_audio r) f1)
    as [[n2 f2]|] eqn:E2.
  2:{ eexists. eexists. split; [reflexivity|]. right. right. left.
      exists n1, f1. repeat split; assumption. }
  destruct (Qltb FAKE_THRESHOLD
                 (improved_fake_score (strip (form_content r))
                                      (strip (form_title r)))) eqn:E.
  - apply Qltb_lt in E.
    destruct (discard_upload_ok UPLOAD_FOLDER f2 n1) as [f3 E3].
    destruct (discard_upload_ok UPLOAD_FOLDER f3 n2) as [f4 E4].
    rewrite E3. cbn [bind]. rewrite E4. cbn [bind].
    eexists. eexists. split; [reflexivity|]. right. right. right. left.
    exists n1, f1, n2, f2, f3, f4. eexists. repeat split; try eassumption.
  - apply Qltb_ge in E.
    eexists. eexists. split; [reflexivity|]. right. right. right. right.
    exists n1, f1, n2, f2. eexists. repeat split; try eassumption.
Qed.

(** X6: the handler never raises; unless it publishes, the table and the id
    counter are as before; when it publishes, exactly one row is added at
    the end, with the next id and a score that is not above the
    threshold. *)
Theorem add_news_table_effect (r : request) (w : world) :
  exists o w',
    add_news UPLOAD_FOLDER secure_filename r w = Ok (o, w')
    /\ ((forall s, o <> Published s) ->
        db w' = db w /\ last_id w' = last_id w)
    /\ (forall s, o = Published s ->
        (s <= FAKE_THRESHOLD)%Q
        /\ last_id w' = last_id w + 1
        /\ exists row, db w' = db w ++ [row]
                       /\ id row = last_id w + 1
                       /\ fake_score row = s).
Proof.
  destruct (add_news_cases r w) as (o & w' & Hrun & Hc).
  exists o, w'. split; [exact Hrun|].
  destruct Hc as [[-> ->]|[[-> ->]|[(n1 & f1 & -> & _ & _ & ->)
    |[(n1 & f1 & n2 & f2 & f3 & f4 & s & -> & _ & _ & _ & _ & _ & ->)
     |(n1 & f1 & n2 & f2 & s & -> & Hs & _ & _ & _ & ->)]]]].
  - split; [intros _; split; reflexivity | intros s H; discriminate H].
  - split; [intros _; split; reflexivity | intros s H; discriminate H].
  - split; [intros _; split; reflexivity | intros s H; discriminate H].
  - split; [intros _; split; reflexivity | intros s' H; discriminate H].
  - split; [intro H; exfalso; exact (H s eq_refl)|].
    intros s' H. injection H as <-.
    split; [exact Hs|]. split; [reflexivity|].
    eexists. cbn [db insert_row]. split; [reflexivity|]. split; reflexivity.
Qed.

(** X7: what the handler stores is never above the threshold, so a table
    without fakes stays without fakes through any submission, and the
    sweep that follows changes neither the table nor the folder. *)
Theorem submission_then_sweep (r : request) (w w' : world) (o : outcome) :
  no_fakes w ->
  add_news UPLOAD_FOLDER secure_filename r w = Ok (o, w') ->
  no_fakes w' /\ cleanup_fakes UPLOAD_FOLDER w' = Ok w'.
Proof.
  intros Hw Hrun.
  assert (Hn : no_fakes w').
  { destruct (add_news_table_effect r w) as (o' & w'' & Hrun' & Hkeep & Hpub).
    rewrite Hrun in Hrun'. injection Hrun' as <- <-.
    unfold no_fakes in *. destruct o as [| | |s|s].
    1-4: destruct Hkeep as [-> _]; [intros s' Hs'; discriminate Hs' | exact Hw].
    destruct (Hpub s eq_refl) as (Hs & _ & row & -> & _ & Hrow).
    apply Forall_app. split; [exact Hw|].
    constructor; [rewrite Hrow; exact Hs | constructor]. }
  split; [exact Hn|]. apply sweep_without_fakes. exact Hn.
Qed.

(** X8: the primary key survives the handler: ids stay pairwise distinct
    and at most the counter. *)
Theorem add_news_keeps_ids (r : request) (w w' : world) (o : outcome) :
  ids_ok w ->
  add_news UPLOAD_FOLDER secure_filename r w = Ok (o, w') ->
  ids_ok w'.
Proof.
  intros [Hnd Hle] Hrun.
  destruct (add_news_table_effect r w) as (o' & w'' & Hrun' & Hkeep & Hpub).
  rewrite Hrun in Hrun'. injection Hrun' as <- <-.
  unfold ids_ok. destruct o as [| | |s|s].
  1-4: destruct Hkeep as [-> ->];
       [intros s' Hs'; discriminate Hs' | split; assumption].
  destruct (Hpub s eq_refl) as (_ & -> & row & -> & Hid & _).
  split.
  - rewrite map_app. cbn [map]. rewrite Hid.
    apply NoDup_app_remove_l with (l := []). cbn [app].
    rewrite <- (rev_involutive (map id (db w) ++ [last_id w + 1])).
    apply NoDup_rev. rewrite rev_app_distr. cbn [rev app].
    constructor.
    + rewrite <- in_rev, in_map_iff. intros (x & Hx & Hin).
      rewrite Forall_forall in Hle. specialize (Hle x Hin). lia.
    + apply NoDup_rev. exact Hnd.
  - apply Forall_app. split.
    + rewrite Forall_forall in *. intros x Hx. specialize (Hle x Hx). lia.
    + constructor; [lia | constructor].
Qed.

(** What one accepted upload does. *)
Lemma store_upload_some (allowed : list pystr) (stamp : pystr)
      (file : option pystr) (f : filesystem) (n : option pystr) (f' : filesystem) :
  store_upload UPLOAD_FOLDER secure_filename allowed stamp file f = Some (n, f') ->
  locked f' = locked f
  /\ (truthy file = true ->
      n = Some (stamp ++ secure_filename (name_of file))
      /\ f' = save_file f (path_join UPLOAD_FOLDER
                                     (stamp ++ secure_filename (name_of file))))
  /\ (truthy file = false -> n = None /\ f' = f).
Proof.
  unfold store_upload. destruct (truthy file).
  - destruct (mem _ allowed); [|discriminate].
    intro H. injection H as <- <-.
    split; [reflexivity|]. split; [intros _; split; reflexivity|].
    discriminate.
  - intro H. injection H as <- <-.
    split; [reflexivity|]. split; [discriminate|]. intros _. split; reflexivity.
Qed.

(** What the unguarded removal of the rejection path does. *)
Lemma discard_upload_files (f f' : filesystem) (name : option pystr) :
  discard_upload UPLOAD_FOLDER f name = Ok f' ->
  locked f' = locked f
  /\ (forall x, In x (files f') -> In x (files f))
  /\ (truthy name = true ->
      mem (path_join UPLOAD_FOLDER (name_of name)) (locked f) = false ->
      ~ In (path_join UPLOAD_FOLDER (name_of name)) (files f')).
Proof.
  unfold discard_upload. destruct (truthy name).
  - set (fp := path_join UPLOAD_FOLDER (name_of name)).
    unfold os_remove. destruct (mem fp (files f)) eqn:Ex; cbn [negb try_pass].
    + destruct (mem fp (locked f)) eqn:El; cbn [try_pass].
      * intro H. injection H as <-.
        split; [reflexivity|]. split; [tauto|]. intros _ Hl. discriminate Hl.
      * intro H. injection H as <-. cbn [files locked].
        split; [reflexivity|]. split.
        -- intros x Hx. apply filter_In in Hx. tauto.
        -- intros _ _ Hin. apply filter_In in Hin. destruct Hin as [_ Hin].
           rewrite pystr_eqb_refl in Hin. discriminate Hin.
    + intro H. injection H as <-.
      split; [reflexivity|]. split; [tauto|].
      intros _ _ Hin. apply mem_In in Hin. congruence.
  - intro H. injection H as <-.
    split; [reflexivity|]. split; [tauto|]. discriminate.
Qed.

(** X9: when the audio file is refused after the image was accepted, the
    handler returns without a row, but the image it has already saved
    stays in the folder. *)
Theorem refused_audio_leaves_image (r : request) (w : world) :
  is_empty (strip (form_title r)) = false ->
  is_empty (strip (form_content r)) = false ->
  truthy (file_image r) = true ->
  upload_accepted secure_filename ALLOWED_IMG (file_image r) = true ->
  upload_accepted secure_filename ALLOWED_AUDIO (file_audio r) = false ->
  exists w',
    add_news UPLOAD_FOLDER secure_filename r w = Ok (BadAudioFormat, w')
    /\ db w' = db w
    /\ os_path_exists
         (fs w')
         (path_join UPLOAD_FOLDER
                    (stamp_image r ++ secure_filename (name_of (file_image r))))
       = true.
Proof.
  intros Ht Hc Hi Hia Haa. unfold add_news. rewrite Ht, Hc. cbn [orb].
  unfold upload_accepted in Hia, Haa. rewrite Hi in Hia. cbn [negb orb] in Hia.
  apply orb_false_iff in Haa. destruct Haa as [Hat Haa].
  apply negb_false_iff in Hat.
  unfold store_upload. rewrite Hi, Hia, Hat, Haa.
  eexists. split; [reflexivity|]. split; [reflexivity|].
  cbn [fs with_fs]. unfold os_path_exists, save_file. cbn [files mem existsb].
  rewrite pystr_eqb_refl. reflexivity.
Qed.

(** X10: after a rejection by the scorer neither uploaded file is left in
    the folder, unless its removal is refused. *)
Theorem rejected_uploads_removed (r : request) (w w' : world) (s : Q) :
  add_news UPLOAD_FOLDER secure_filename r w = Ok (Rejected s, w') ->
  (truthy (file_image r) = true ->
   stamp_image r <> [] ->
   mem (path_join UPLOAD_FOLDER
                  (stamp_image r ++ secure_filename (name_of (file_image r))))
       (locked (fs w)) = false ->
   os_path_exists
     (fs w')
     (path_join UPLOAD_FOLDER
                (stamp_image r ++ secure_filename (name_of (file_image r))))
   = false)
  /\ (truthy (file_audio r) = true ->
      stamp_audio r <> [] ->
      mem (path_join UPLOAD_FOLDER
                     (stamp_audio r ++ secure_filename (name_of (file_audio r))))
          (locked (fs w)) = false ->
      os_path_exists
        (fs w')
        (path_join UPLOAD_FOLDER
                   (stamp_audio r ++ secure_filename (name_of (file_audio r))))
      = false).
Proof.
  intro Hrun.
  destruct (add_news_cases r w) as (o & w'' & Hrun' & Hc).
  rewrite Hrun in Hrun'. injection Hrun' as <- <-.
  destruct Hc as [[Ho _]|[[Ho _]|[(n1 & f1 & Ho & _)
    |[(n1 & f1 & n2 & f2 & f3 & f4 & s' & Ho & _ & E1 & E2 & E3 & E4 & ->)
     |(n1 & f1 & n2 & f2 & s' & Ho & _)]]]]; try discriminate Ho.
  destruct (store_upload_some _ _ _ _ _ _ E1) as (Hl1 & Hy1 & _).
  destruct (store_upload_some _ _ _ _ _ _ E2) as (Hl2 & Hy2 & _).
  destruct (discard_upload_files _ _ _ E3) as (Hl3 & Hs3 & Hr3).
  destruct (discard_upload_files _ _ _ E4) as (Hl4 & Hs4 & Hr4).
  assert (Hnot : forall p f, ~ In p (files f) -> os_path_exists f p = false).
  { intros p f H. unfold os_path_exists.
    destruct (mem p (files f)) eqn:E; [|reflexivity].
    apply mem_In in E. contradiction. }
  assert (Htr : forall a b : pystr, a <> [] -> truthy (Some (a ++ b)) = true).
  { intros a b Ha. destruct a; [congruence | reflexivity]. }
  cbn [fs with_fs]. split.
  - intros Hi Hst Hlk. destruct (Hy1 Hi) as [-> _].
    apply Hnot. intro Hin. apply Hs4 in Hin. revert Hin.
    apply Hr3; [apply Htr; exact Hst|].
    cbn [name_of]. rewrite Hl2, Hl1. exact Hlk.
  - intros Ha Hst Hlk. destruct (Hy2 Ha) as [-> _].
    apply Hnot. apply Hr4; [apply Htr; exact Hst|].
    cbn [name_of]. rewrite Hl3, Hl2, Hl1. exact Hlk.
Qed.

End HandlerFacts.

Section DeleteFacts.
Variable UPLOAD_FOLDER : pystr.

Lemma find_id_none (nid : Z) (rows : list news_row) :
  find (fun r => id r =? nid) rows = None
  <-> forall r, In r rows -> id r <> nid.
Proof.
  split.
  - intros H r Hin E. apply (find_none _ _ H) in Hin.
    apply Z.eqb_neq in Hin. contradiction.
  - intro H. induction rows as [|x l IH]; [reflexivity|]. simpl.
    destruct (Z.eqb_spec (id x) nid) as [E|E].
    + exfalso. exact (H x (or_introl eq_refl) E).
    + apply IH. intros r Hr. apply H. right. exact Hr.
Qed.

(** X11: deleting by id never raises; it answers "not found" exactly when
    no row has the id, and then nothing changes; otherwise every row with
    the id is gone, the other rows and the id counter are untouched. *)
Theorem delete_news_effect (nid : Z) (w : world) :
  exists o w',
    delete_news UPLOAD_FOLDER nid w = Ok (o, w')
    /\ (o = NotFound <-> forall r, In r (db w) -> id r <> nid)
    /\ (o = NotFound -> w' = w)
    /\ (o = Deleted ->
        db w' = filter (fun x => negb (id x =? nid)) (db w)
        /\ last_id w' = last_id w
        /\ (forall r, In r (db w') -> id r <> nid)
        /\ (forall r, In r (db w) -> id r <> nid -> In r (db w'))).
Proof.
  unfold delete_news.
  destruct (find (fun r => id r =? nid) (db w)) as [r|] eqn:E.
  - destruct (cleanup_row_ok UPLOAD_FOLDER (fs w) r) as [f ->]. cbn [bind].
    eexists. eexists. split; [reflexivity|]. split; [|split].
    + split; [discriminate|]. intro H. exfalso.
      apply find_id_none in H. congruence.
    + discriminate.
    + intros _. cbn [db last_id]. split; [reflexivity|]. split; [reflexivity|].
      split.
      * intros x Hx Ex. apply filter_In in Hx. destruct Hx as [_ Hx].
        apply negb_true_iff, Z.eqb_neq in Hx. contradiction.
      * intros x Hx Ex. apply filter_In. split; [exact Hx|].
        apply negb_true_iff, Z.eqb_neq. exact Ex.
  - exists NotFound, w. split; [reflexivity|]. split; [|split].
    + split; [intros _; apply find_id_none; exact E | reflexivity].
    + reflexivity.
    + discriminate.
Qed.

(** X12: a second deletion of the same id finds nothing and changes
    nothing. *)
Theorem delete_news_twice (nid : Z) (w w' : world) :
  delete_news UPLOAD_FOLDER nid w = Ok (Deleted, w') ->
  delete_news UPLOAD_FOLDER nid w' = Ok (NotFound, w').
Proof.
  intro H.
  destruct (delete_news_effect nid w) as (o & w1 & Hrun & _ & _ & Hdel).
  rewrite H in Hrun. injection Hrun as <- <-.
  destruct (Hdel eq_refl) as (_ & _ & Hno & _).
  unfold delete_news.
  replace (find (fun r => id r =? nid) (db w')) with (@None news_row);
    [reflexivity|].
  symmetry. apply find_id_none. exact Hno.
Qed.

(** X13: the folder after a deletion: a file is there iff it was there and
    is not a removable media file of the row that was found. *)
Theorem delete_news_folder_effect (nid : Z) (w w' : world) (r : news_row) :
  find (fun x => id x =? nid) (db w) = Some r ->
  delete_news UPLOAD_FOLDER nid w = Ok (Deleted, w') ->
  locked (fs w') = locked (fs w)
  /\ forall p,
      In p (files (fs w'))
      <-> In p (files (fs w))
          /\ ~ (In p (media_paths UPLOAD_FOLDER [r])
                /\ ~ In p (locked (fs w))).
Proof.
  intros Hf Hrun. unfold delete_news in Hrun. rewrite Hf in Hrun.
  destruct (cleanup_row_files UPLOAD_FOLDER (fs w) r) as (f & Hc & Hl & Hfiles).
  rewrite Hc in Hrun. cbn [bind] in Hrun. injection Hrun as <-.
  cbn [fs]. split; [exact Hl|]. intro p. rewrite Hfiles, filter_In.
  unfold removable.
  rewrite negb_true_iff, andb_false_iff, negb_false_iff.
  rewrite <- (mem_In p (media_paths UPLOAD_FOLDER [r])),
          <- (mem_In p (locked (fs w))).
  destruct (mem p (media_paths UPLOAD_FOLDER [r])), (mem p (locked (fs w)));
    intuition congruence.
Qed.

(** X14: the primary key survives the sweep and the deletion. *)
Theorem sweep_and_delete_keep_ids (w : world) :
  ids_ok w ->
  (forall w', cleanup_fakes UPLOAD_FOLDER w = Ok w' -> ids_ok w')
  /\ (forall nid o w', delete_news UPLOAD_FOLDER nid w = Ok (o, w') -> ids_ok w').
Proof.
  intros [Hnd Hle].
  assert (Hfil : forall (g : news_row -> bool),
             NoDup (map id (filter g (db w)))
             /\ Forall (fun r => id r <= last_id w) (filter g (db w))).
  { intro g. split.
    - clear Hle. induction (db w) as [|x l IH]; [constructor|].
      cbn [map] in Hnd. inversion Hnd as [|? ? Hx Hl]; subst.
      cbn [filter]. destruct (g x); [|apply IH; exact Hl].
      cbn [map]. constructor; [|apply IH; exact Hl].
      intro Hin. apply Hx. apply in_map_iff in Hin.
      destruct Hin as (y & Hy & Hin). apply filter_In in Hin.
      apply in_map_iff. exists y. tauto.
    - rewrite Forall_forall in *. intros x Hx. apply filter_In in Hx.
      apply Hle. tauto. }
  split.
  - intros w' Hrun.
    destruct (cleanup_fakes_ok UPLOAD_FOLDER w) as (w1 & Hrun1 & Hdb & Hid).
    rewrite Hrun in Hrun1. injection Hrun1 as <-.
    unfold ids_ok. rewrite Hdb, Hid. apply Hfil.
  - intros nid o w' Hrun.
    destruct (delete_news_effect nid w) as (o1 & w1 & Hrun1 & _ & Hnf & Hdel).
    rewrite Hrun in Hrun1. injection Hrun1 as <- <-.
    destruct o.
    + rewrite (Hnf eq_refl). split; assumption.
    + destruct (Hdel eq_refl) as (Hdb & Hid & _).
      unfold ids_ok. rewrite Hdb, Hid. apply Hfil.
Qed.

End DeleteFacts.

Section PublishedRow.
Context {U : UnicodeTables}.
Variable UPLOAD_FOLDER : pystr.
Variable secure_filename : pystr -> pystr.

Lemma filter_other_ids (nid : Z) (rows : list news_row) :
  (forall r, In r rows -> id r <> nid) ->
  filter (fun x => negb (id x =? nid)) rows = rows.
Proof.
  intro H. apply filter_all. intros x Hx.
  apply negb_true_iff, Z.eqb_neq. apply H. exact Hx.
Qed.

Lemma find_app_last (nid : Z) (rows : list news_row) (row : news_row) :
  (forall r, In r rows -> id r <> nid) ->
  id row = nid ->
  find (fun r => id r =? nid) (rows ++ [row]) = Some row.
Proof.
  intros H Hid. induction rows as [|x l IH]; cbn [app find].
  - rewrite Hid, Z.eqb_refl. reflexivity.
  - destruct (Z.eqb_spec (id x) nid) as [E|E].
    + exfalso. exact (H x (or_introl eq_refl) E).
    + apply IH. intros r Hr. apply H. right. exact Hr.
Qed.

(** X15: a published news item can be read back under its new id, with
    the score, the stripped title and the stripped text it was given, and
    deleting it under that id brings the table back to what it was. *)
Theorem publish_view_delete (r : request) (w w' : world) (s : Q) :
  ids_ok w ->
  add_news UPLOAD_FOLDER secure_filename r w = Ok (Published s, w') ->
  (exists row,
      view_news (last_id w + 1) w' = Some row
      /\ fake_score row = s
      /\ title row = strip (form_title r)
      /\ content row = strip (form_content r)
      /\ s = improved_fake_score (strip (form_content r)) (strip (form_title r)))
  /\ exists w'',
      delete_news UPLOAD_FOLDER (last_id w + 1) w' = Ok (Deleted, w'')
      /\ db w'' = db w.
Proof.
  intros [_ Hle] Hrun.
  destruct (add_news_cases UPLOAD_FOLDER secure_filename r w)
    as (o & w1 & Hrun1 & Hc).
  rewrite Hrun in Hrun1. injection Hrun1 as <- <-.
  destruct Hc as [[Ho _]|[[Ho _]|[(n1 & f1 & Ho & _)
    |[(n1 & f1 & n2 & f2 & f3 & f4 & s' & Ho & _)
     |(n1 & f1 & n2 & f2 & s' & Ho & _ & Hs & _ & _ & ->)]]]];
    try discriminate Ho.
  injection Ho as <-.
  assert (Hfresh : forall x, In x (db w) -> id x <> last_id w + 1).
  { intros x Hx. rewrite Forall_forall in Hle. specialize (Hle x Hx). lia. }
  split.
  - eexists. unfold view_news. cbn [db insert_row].
    erewrite find_app_last; [|exact Hfresh|reflexivity].
    split; [reflexivity|]. cbn [fake_score title content].
    repeat split. exact Hs.
  - unfold delete_news. cbn [db insert_row].
    erewrite find_app_last; [|exact Hfresh|reflexivity].
    match goal with
    | |- context [cleanup_row ?u ?f ?x] =>
      destruct (cleanup_row_ok u f x) as [f' ->]
    end.
    cbn [bind]. eexists. split; [reflexivity|]. cbn [db].
    rewrite filter_app. cbn [filter id]. rewrite Z.eqb_refl. cbn [negb].
    rewrite app_nil_r. apply filter_other_ids. exact Hfresh.
Qed.

End PublishedRow.

(** ** Listings *)

Lemma insert_by_id_desc_In (r x : news_row) (l : list news_row) :
  In x (insert_by_id_desc r l) <-> x = r \/ In x l.
Proof.
  induction l as [|y l IH]; cbn [insert_by_id_desc].
  - simpl. intuition.
  - destruct (id y <=? id r); simpl in *; intuition.
Qed.

Lemma order_by_id_desc_In (x : news_row) (rows : list news_row) :
  In x (order_by_id_desc rows) <-> In x rows.
Proof.
  induction rows as [|r rows IH]; [reflexivity|].
  unfold order_by_id_desc in *. cbn [fold_right].
  rewrite insert_by_id_desc_In, IH. simpl. intuition.
Qed.



Lemma insert_by_id_desc_sorted (r : news_row) (l : list news_row) :
  newest_first l -> newest_first (insert_by_id_desc r l).
Proof.
  unfold newest_first. induction l as [|y l IH]; intro H; cbn [insert_by_id_desc].
  - constructor; constructor.
  - destruct (Z.leb_spec (id y) (id r)) as [Hle|Hgt].
    + constructor; [exact H|].
      inversion H as [|? ? Hl Hy]; subst.
      constructor; [exact Hle|].
      rewrite Forall_forall in *. intros z Hz. specialize (Hy z Hz). lia.
    + inversion H as [|? ? Hl Hy]; subst.
      constructor; [apply IH; exact Hl|].
      rewrite Forall_forall in *. intros z Hz.
      apply insert_by_id_desc_In in Hz. destruct Hz as [->|Hz]; [lia|].
      apply Hy. exact Hz.
Qed.

Lemma order_by_id_desc_sorted (rows : list news_row) :
  newest_first (order_by_id_desc rows).
Proof.
  induction rows as [|r rows IH]; [constructor|].
  unfold order_by_id_desc in *. cbn [fold_right].
  apply insert_by_id_desc_sorted. exact IH.
Qed.




Section Listing.
Context {U : UnicodeTables}.
Variable UPLOAD_FOLDER : pystr.
Variable secure_filename : pystr -> pystr.


(** X18: the news page never raises and lists exactly the rows that are
    not above the threshold, newest first; the rest has been purged. *)
Theorem news_list_shows_no_fake (w : world) :
  exists rows w',
    news_list UPLOAD_FOLDER w = Ok (rows, w')
    /\ newest_first rows
    /\ (forall x, In x rows
                  <-> In x (db w) /\ (fake_score x <= FAKE_THRESHOLD)%Q)
    /\ (forall x, In x rows <-> In x (db w')).
Proof.
  unfold news_list.
  destruct (cleanup_fakes_ok UPLOAD_FOLDER w) as (w' & -> & Hdb & _).
  cbn [bind]. eexists. eexists. split; [reflexivity|].
  split; [apply order_by_id_desc_sorted|]. split.
  - intro x. rewrite order_by_id_desc_In, Hdb, in_delete_fakes.
    unfold over_threshold. rewrite Qltb_ge. reflexivity.
  - intro x. apply order_by_id_desc_In.
Qed.

End Listing.

(** ** The audits: [check_uploads] and [check_duplicates] *)

Section Audits.
Context {U : UnicodeTables}.
Variable UPLOAD_FOLDER : pystr.
Variable secure_filename : pystr -> pystr.

Lemma flat_map_nil {A B : Type} (f : A -> list B) (l : list A) :
  flat_map f l = [] <-> forall x, In x l -> f x = [].
Proof.
  induction l as [|a l IH]; cbn [flat_map].
  - split; [intros _ x [] | reflexivity].
  - split.
    + intros H x [<-|Hx].
      * apply app_eq_nil in H. tauto.
      * apply app_eq_nil in H. apply IH; tauto.
    + intro H. rewrite (H a (or_introl eq_refl)). cbn [app].
      apply IH. intros x Hx. apply H. right. exact Hx.
Qed.

(** A row has nothing missing iff each name it carries is in the folder. *)
Lemma missing_of_nil (f : filesystem) (r : news_row) :
  missing_of UPLOAD_FOLDER f r = []
  <-> (truthy (image r) = true ->
       os_path_exists f (path_join UPLOAD_FOLDER (name_of (image r))) = true)
      /\ (truthy (audio r) = true ->
          os_path_exists f (path_join UPLOAD_FOLDER (name_of (audio r))) = true).
Proof.
  unfold missing_of. cbn [flat_map]. rewrite app_nil_r.
  destruct (truthy (image r)), (truthy (audio r));
    destruct (os_path_exists f (path_join UPLOAD_FOLDER (name_of (image r))));
    destruct (os_path_exists f (path_join UPLOAD_FOLDER (name_of (audio r))));
    cbn; intuition discriminate.
Qed.

Lemma exists_after_save (f : filesystem) (d p : pystr) :
  os_path_exists f p = true -> os_path_exists (save_file f d) p = true.
Proof.
  unfold os_path_exists, save_file. cbn [files mem existsb].
  intro H. unfold mem in H. rewrite H. apply orb_true_r.
Qed.

Lemma exists_saved (f : filesystem) (d : pystr) :
  os_path_exists (save_file f d) d = true.
Proof.
  unfold os_path_exists, save_file. cbn [files mem existsb].
  rewrite pystr_eqb_refl. reflexivity.
Qed.

(** X19: publishing keeps the audit of uploads clean: if no stored row
    named a missing file before, none does after, the new row included,
    since its files are saved before the row is written. *)
Theorem publish_keeps_uploads_complete (r : request) (w w' : world) (s : Q) :
  check_uploads UPLOAD_FOLDER w = [] ->
  add_news UPLOAD_FOLDER secure_filename r w = Ok (Published s, w') ->
  check_uploads UPLOAD_FOLDER w' = [].
Proof.
  intros Hclean Hrun.
  destruct (add_news_cases UPLOAD_FOLDER secure_filename r w)
    as (o & w1 & Hrun1 & Hc).
  rewrite Hrun in Hrun1. injection Hrun1 as <- <-.
  destruct Hc as [[Ho _]|[[Ho _]|[(n1 & f1 & Ho & _)
    |[(n1 & f1 & n2 & f2 & f3 & f4 & s' & Ho & _)
     |(n1 & f1 & n2 & f2 & s' & Ho & _ & _ & E1 & E2 & ->)]]]];
    try discriminate Ho.
  destruct (store_upload_some _ _ _ _ _ _ _ _ E1) as (_ & Hy1 & Hn1).
  destruct (store_upload_some _ _ _ _ _ _ _ _ E2) as (_ & Hy2 & Hn2).
  assert (Hgrow1 : forall p, os_path_exists (fs w) p = true ->
                             os_path_exists f1 p = true).
  { intros p Hp. destruct (truthy (file_image r)) eqn:Ti.
    - destruct (Hy1 eq_refl) as [_ ->]. apply exists_after_save. exact Hp.
    - destruct (Hn1 eq_refl) as [_ ->]. exact Hp. }
  assert (Hgrow2 : forall p, os_path_exists f1 p = true ->
                             os_path_exists f2 p = true).
  { intros p Hp. destruct (truthy (file_audio r)) eqn:Ta.
    - destruct (Hy2 eq_refl) as [_ ->]. apply exists_after_save. exact Hp.
    - destruct (Hn2 eq_refl) as [_ ->]. exact Hp. }
  unfold check_uploads in *. cbn [db fs insert_row].
  rewrite flat_map_nil in *. intros x Hx.
  apply in_app_or in Hx. destruct Hx as [Hx|[<-|[]]].
  - specialize (Hclean x Hx). rewrite missing_of_nil in *.
    destruct Hclean as [Hi Ha]. split; intro T.
    + apply Hgrow2, Hgrow1, Hi, T.
    + apply Hgrow2, Hgrow1, Ha, T.
  - rewrite missing_of_nil. cbn [image audio]. split; intro T.
    + destruct (truthy (file_image r)) eqn:Ti.
      * destruct (Hy1 eq_refl) as [-> ->]. apply Hgrow2.
        cbn [name_of]. apply exists_saved.
      * destruct (Hn1 eq_refl) as [-> _]. discriminate T.
    + destruct (truthy (file_audio r)) eqn:Ta.
      * destruct (Hy2 eq_refl) as [-> ->]. cbn [name_of]. apply exists_saved.
      * destruct (Hn2 eq_refl) as [-> _]. discriminate T.
Qed.

End Audits.

Lemma count_title_occ (t : pystr) (rows : list news_row) :
  count_title t rows
  = Z.of_nat (count_occ (list_eq_dec Z.eq_dec) (map title rows) t).
Proof.
  unfold count_title. f_equal.
  induction rows as [|r rows IH]; [reflexivity|].
  cbn [filter map count_occ]. unfold pystr_eqb at 1.
  destruct (list_eq_dec Z.eq_dec (title r) t); cbn [List.length];
    rewrite IH; reflexivity.
Qed.

(** X20: the audit of duplicates reports a title iff more than one row
    carries it, each such title once and with the number of its rows; it
    reports nothing iff the titles are pairwise different. *)
Theorem check_duplicates_effect (w : world) :
  (forall t n,
      In (t, n) (check_duplicates w)
      <-> n = count_title t (db w) /\ 2 <= n)
  /\ NoDup (map fst (check_duplicates w))
  /\ (check_duplicates w = [] <-> NoDup (map title (db w))).
Proof.
  assert (Hin : forall t n,
             In (t, n) (check_duplicates w)
             <-> n = count_title t (db w) /\ 2 <= n).
  { intros t n. unfold check_duplicates. rewrite in_map_iff. split.
    - intros (t' & E & Ht'). injection E as -> <-.
      apply filter_In in Ht'. destruct Ht' as [_ Hc].
      apply Z.ltb_lt in Hc. split; [reflexivity | lia].
    - intros [-> Hn]. exists t. split; [reflexivity|].
      apply filter_In. split; [|apply Z.ltb_lt; lia].
      apply nodup_In. rewrite count_title_occ in Hn.
      apply (count_occ_In (list_eq_dec Z.eq_dec)). lia. }
  split; [exact Hin|]. split.
  - unfold check_duplicates. rewrite map_map. cbn [fst]. rewrite map_id.
    apply NoDup_filter. apply NoDup_nodup.
  - split.
    + intro He. apply (NoDup_count_occ (list_eq_dec Z.eq_dec)). intro t.
      destruct (le_lt_dec (count_occ (list_eq_dec Z.eq_dec)
                                     (map title (db w)) t) 1) as [H|H];
        [exact H|].
      exfalso.
      assert (Hi : In (t, count_title t (db w)) (check_duplicates w)).
      { apply Hin. split; [reflexivity|]. rewrite count_title_occ. lia. }
      rewrite He in Hi. exact Hi.
    + intro Hnd.
      assert (Hall : forall p, In p (check_duplicates w) -> False).
      { intros [t n] Hi. apply Hin in Hi. destruct Hi as [-> Hn].
        rewrite count_title_occ in Hn.
        rewrite (NoDup_count_occ (list_eq_dec Z.eq_dec)) in Hnd.
        specialize (Hnd t). lia. }
      destruct (check_duplicates w) as [|p l]; [reflexivity|].
      exfalso. apply (Hall p). left. reflexivity.
Qed.

(* ================================================================== *)
(** * Further properties of the moon phase and of [check_news]         *)
(* ================================================================== *)

Lemma round_half_even_range (x : R) (a b : Z) :
  (IZR a <= x <= IZR b)%R -> a <= round_half_even x <= b.
Proof.
  intros [Ha Hb].
  pose proof (round_half_even_close x) as H. apply Rabs_le_between in H.
  assert (Hlo : (IZR (a - 1) < IZR (round_half_even x))%R)
    by (rewrite minus_IZR; rlra).
  assert (Hhi : (IZR (round_half_even x) < IZR (b + 1))%R)
    by (rewrite plus_IZR; rlra).
  apply lt_IZR in Hlo, Hhi. lia.
Qed.

Lemma illum_of_range (c : Q) : (0 <= illum_of c <= 1)%R.
Proof.
  unfold illum_of. pose proof (COS_bound (2 * PI * Q2R c)). rlra.
Qed.

(** X21: whatever the instant, the illumination is between 0 and 1, and
    the percentage shown is between 0 and 100, a whole number of tenths,
    and within 0.05 of a hundred times the illumination. *)
Theorem moon_illumination_range (clock : Z) (now : option Z) :
  let m := moon_phase_info clock now in
  (0 <= illum m <= 1)%R
  /\ (0 <= illum_pct m <= 100)%R
  /\ (exists n : Z, 0 <= n <= 1000 /\ illum_pct m = (IZR n / 10)%R)
  /\ (Rabs (illum_pct m - illum m * 100) <= 5 / 100)%R.
Proof.
  intro m. unfold m, moon_phase_info. cbn [illum illum_pct].
  set (t := match now with Some t => t | None => clock end).
  pose proof (illum_of_range (cycle_of t)) as Hi.
  set (x := illum_of (cycle_of t)) in *.
  assert (Hn : 0 <= round_half_even (x * 100 * 10) <= 1000)
    by (apply round_half_even_range; rlra).
  pose proof (round_half_even_close (x * 100 * 10)) as Hc.
  apply Rabs_le_between in Hc.
  unfold round1. set (n := round_half_even (x * 100 * 10)) in *.
  assert (Hr : (0 <= IZR n <= 1000)%R)
    by (split; [apply (IZR_le 0) | apply (IZR_le n 1000)]; lia).
  split; [exact Hi|]. split; [rlra|]. split.
  - exists n. split; [exact Hn | reflexivity].
  - apply Rabs_le. rlra.
Qed.

Lemma bucket_of_cycle (t : Z) :
  exists k : Z,
    0 <= k <= 8
    /\ idx_of (cycle_of t) = k mod 8
    /\ (inject_Z k - (1 # 2) <= cycle_of t * 8)%Q
    /\ (cycle_of t * 8 < inject_Z k + (1 # 2))%Q.
Proof.
  pose proof (cycle_of_range t) as [Hc0 Hc1].
  exists (Qfloor (cycle_of t * 8 + (1 # 2))).
  pose proof (Qfloor_le (cycle_of t * 8 + (1 # 2))) as H1.
  pose proof (Qlt_floor (cycle_of t * 8 + (1 # 2))) as H2.
  set (k := Qfloor (cycle_of t * 8 + (1 # 2))) in *.
  rewrite inject_Z_plus in H2. change (inject_Z 1) with 1%Q in H2.
  split; [|split; [apply idx_of_floor; exact Hc0 | split; qlra]].
  assert (Ha : (inject_Z (-1) < inject_Z k)%Q)
    by (change (inject_Z (-1)) with (-1 # 1)%Q; qlra).
  assert (Hb : (inject_Z k < inject_Z 9)%Q)
    by (change (inject_Z 9) with (9 # 1)%Q; qlra).
  rewrite <- Zlt_Qlt in Ha, Hb. lia.
Qed.

Lemma Q2R_bounds (c lo hi : Q) :
  (lo <= c)%Q -> (c < hi)%Q -> (Q2R lo <= Q2R c < Q2R hi)%R.
Proof.
  intros H1 H2. split; [apply Qle_Rle | apply Qlt_Rlt]; assumption.
Qed.

(** Around the full moon the disc is more than half lit, around the new
    moon less than half. *)
Lemma illum_by_index (t : Z) :
  (3 <= idx_of (cycle_of t) <= 5 -> (1 / 2 < illum_of (cycle_of t))%R)
  /\ (idx_of (cycle_of t) <= 1 \/ idx_of (cycle_of t) = 7 ->
      (illum_of (cycle_of t) < 1 / 2)%R).
Proof.
  destruct (bucket_of_cycle t) as (k & Hk & Ei & Hlo & Hhi).
  pose proof (cycle_of_range t) as [Hc0 Hc1].
  rewrite Ei. set (c := cycle_of t) in *.
  pose proof PI_RGT_0 as Hpi.
  unfold illum_of. split.
  - intro Hi.
    assert (Hk' : 3 <= k <= 5).
    { destruct (Z.eq_dec k 8) as [->|]; [cbn in Hi; lia|].
      rewrite Z.mod_small in Hi by lia. exact Hi. }
    assert (Hq : (5 # 16 <= c)%Q /\ (c < 11 # 16)%Q).
    { assert (H3 : (inject_Z 3 <= inject_Z k)%Q) by (rewrite <- Zle_Qle; lia).
      assert (H5 : (inject_Z k <= inject_Z 5)%Q) by (rewrite <- Zle_Qle; lia).
      change (inject_Z 3) with (3 # 1)%Q in H3.
      change (inject_Z 5) with (5 # 1)%Q in H5. split; qlra. }
    destruct Hq as [Ha Hb].
    destruct (Q2R_bounds _ _ _ Ha Hb) as [Ra Rb].
    unfold Q2R at 1 in Ra. unfold Q2R at 2 in Rb. cbn [Qnum Qden] in Ra, Rb.
    assert (Hcos : (cos (2 * PI * Q2R c) < 0)%R) by (apply cos_lt_0; nra).
    rlra.
  - intro Hi.
    assert (Hk' : k <= 1 \/ 7 <= k).
    { destruct (Z.eq_dec k 8) as [->|]; [lia|].
      rewrite Z.mod_small in Hi by lia. lia. }
    assert (Hcos : (0 < cos (2 * PI * Q2R c))%R).
    { destruct Hk' as [Hk'|Hk'].
      - assert (Hb : (c < 3 # 16)%Q).
        { assert (H1 : (inject_Z k <= inject_Z 1)%Q) by (rewrite <- Zle_Qle; lia).
          change (inject_Z 1) with 1%Q in H1. qlra. }
        destruct (Q2R_bounds _ _ _ Hc0 Hb) as [Ra Rb].
        unfold Q2R at 1 in Ra. unfold Q2R at 2 in Rb. cbn [Qnum Qden] in Ra, Rb.
        apply cos_gt_0; nra.
      - assert (Ha : (13 # 16 <= c)%Q).
        { assert (H7 : (inject_Z 7 <= inject_Z k)%Q) by (rewrite <- Zle_Qle; lia).
          change (inject_Z 7) with (7 # 1)%Q in H7. qlra. }
        destruct (Q2R_bounds _ _ _ Ha Hc1) as [Ra Rb].
        unfold Q2R at 1 in Ra. unfold Q2R at 2 in Rb. cbn [Qnum Qden] in Ra, Rb.
        replace (2 * PI * Q2R c)%R
          with ((2 * PI * Q2R c - 2 * PI) + 2 * INR 1 * PI)%R
          by (cbn [INR]; ring).
        rewrite cos_period. apply cos_gt_0; nra. }
    rlra.
Qed.

Lemma phase_name_index (i : Z) :
  0 <= i < 8 ->
  let n := nth (Z.to_nat i) PHASE_NAMES [] in
  (In n [nth 3 PHASE_NAMES []; nth 4 PHASE_NAMES []; nth 5 PHASE_NAMES []]
   -> 3 <= i <= 5)
  /\ (In n [nth 7 PHASE_NAMES []; nth 0 PHASE_NAMES []; nth 1 PHASE_NAMES []]
      -> i <= 1 \/ i = 7).
Proof.
  intro Hi.
  assert (E : i = 0 \/ i = 1 \/ i = 2 \/ i = 3 \/ i = 4 \/ i = 5 \/ i = 6 \/ i = 7)
    by lia.
  destruct E as [->|[->|[->|[->|[->|[->|[->| ->]]]]]]];
    (split; intro H; [try lia | try lia]);
    exfalso; vm_compute in H; intuition discriminate.
Qed.

(** X22: the name agrees with the illumination: under the names around the
    full moon (the fourth to the sixth of the list) more than half of the
    disc is lit, under those around the new moon (the eighth, the first
    and the second) less than half. *)
Theorem phase_name_agrees_with_illumination (clock : Z) (now : option Z) :
  let m := moon_phase_info clock now in
  (In (name m) [py "Растущая луна"; py "Полнолуние"; py "Убывающая луна"] ->
   (1 / 2 < illum m)%R)
  /\ (In (name m) [py "Стареющий серп"; py "Новолуние"; py "Растущий серп"] ->
      (illum m < 1 / 2)%R).
Proof.
  intro m. unfold m, moon_phase_info. cbn [illum name].
  set (t := match now with Some t => t | None => clock end).
  pose proof (illum_by_index t) as [Hfull Hnew].
  assert (Hi : 0 <= idx_of (cycle_of t) < 8)
    by (unfold idx_of; apply Z.mod_pos_bound; lia).
  pose proof (phase_name_index _ Hi) as [Hn1 Hn2].
  split; intro H.
  - apply Hfull, Hn1. exact H.
  - apply Hnew, Hn2. exact H.
Qed.

(** ** [check_news] *)

Lemma Qmax_cases (x a : Q) : Qmax x a = x \/ Qmax x a = a.
Proof.
  unfold Qmax, GenericMinMax.gmax. destruct (x ?= a)%Q; auto.
Qed.

Lemma max_of_spec (x : Q) (l : list Q) :
  In (max_of x l) (x :: l)
  /\ forall y, In y (x :: l) -> (y <= max_of x l)%Q.
Proof.
  unfold max_of. revert x. induction l as [|a l IH]; intro x; cbn [fold_left].
  - split; [left; reflexivity|]. intros y [<-|[]]. apply Qle_refl.
  - destruct (IH (Qmax x a)) as [Hin Hle]. split.
    + destruct Hin as [E|Hin].
      * rewrite <- E. destruct (Qmax_cases x a) as [->| ->].
        -- left. reflexivity.
        -- right. left. reflexivity.
      * right. right. exact Hin.
    + intros y [Ey|[Ey|Hy]].
      * subst y. apply Qle_trans with (Qmax x a); [apply Q.le_max_l|].
        apply Hle. left. reflexivity.
      * subst y. apply Qle_trans with (Qmax x a); [apply Q.le_max_r|].
        apply Hle. left. reflexivity.
      * apply Hle. right. exact Hy.
Qed.

(** X23: [check_news] fails to load iff the page has no headline.
    Otherwise the similarity it reports is that of one of the first ten
    headlines and no smaller than that of any of them; the news is
    confirmed iff that similarity is above 0.8, needs a check iff it is
    above 0.5 and at most 0.8, and is a likely fake iff it is at most
    0.5.  Headlines after the tenth play no part. *)
Theorem check_news_verdict (headlines : list pystr) (sim : pystr -> Q) :
  (check_news headlines sim = LoadFailed <-> headlines = [])
  /\ (headlines <> [] ->
      exists h s,
        In h (firstn 10 headlines) /\ s = sim h
        /\ (forall h', In h' (firstn 10 headlines) -> (sim h' <= s)%Q)
        /\ check_news headlines sim
           = (if Qltb (8 # 10) s then Confirmed s
              else if Qltb (5 # 10) s then NeedsCheck s else LikelyFake s)
        /\ ((8 # 10 < s)%Q <-> check_news headlines sim = Confirmed s)
        /\ ((s <= 5 # 10)%Q <-> check_news headlines sim = LikelyFake s))
  /\ (forall more,
        (10 <= List.length headlines)%nat ->
        check_news (headlines ++ more) sim = check_news headlines sim).
Proof.
  split; [|split].
  - unfold check_news, fetch_nasa_news.
    destruct headlines as [|h0 hs]; [split; reflexivity|].
    cbn [firstn map]. split; [|discriminate].
    destruct (Qltb (8 # 10) _); [discriminate|].
    destruct (Qltb (5 # 10) _); discriminate.
  - intro Hne. unfold check_news, fetch_nasa_news.
    destruct (firstn 10 headlines) as [|h0 hs] eqn:E.
    { destruct headlines; [congruence | discriminate E]. }
    cbn [map].
    destruct (max_of_spec (sim h0) (map sim hs)) as [Hin Hle].
    set (s := max_of (sim h0) (map sim hs)) in *.
    assert (Hh : exists h, In h (h0 :: hs) /\ s = sim h).
    { change (sim h0 :: map sim hs) with (map sim (h0 :: hs)) in Hin.
      apply in_map_iff in Hin. destruct Hin as (h & Eh & Hh).
      exists h. split; [exact Hh | symmetry; exact Eh]. }
    destruct Hh as (h & Hh & Es).
    exists h, s. split; [exact Hh|]. split; [exact Es|]. split.
    { intros h' Hh'. apply Hle.
      change (sim h0 :: map sim hs) with (map sim (h0 :: hs)).
      apply in_map. exact Hh'. }
    split; [reflexivity|].
    destruct (Qltb (8 # 10) s) eqn:E8.
    + apply Qltb_lt in E8. split.
      * split; [reflexivity | intros _; exact E8].
      * split; [intro; qlra | discriminate].
    + apply Qltb_ge in E8.
      destruct (Qltb (5 # 10) s) eqn:E5.
      * apply Qltb_lt in E5. split.
        -- split; [intro; qlra | discriminate].
        -- split; [intro; qlra | discriminate].
      * apply Qltb_ge in E5. split.
        -- split; [intro; qlra | discriminate].
        -- split; [reflexivity | intros _; exact E5].
  - intros more Hlen. unfold check_news, fetch_nasa_news.
    rewrite firstn_app.
    replace (10 - List.length headlines)%nat with 0%nat by lia.
    cbn [firstn]. rewrite app_nil_r. reflexivity.
Qed.

(* ================================================================== *)
(** * Worked runs                                                      *)
(* ================================================================== *)

(** The handler, the purge and the deletion run on the sample tables, with
    the basic tables, the sample folder and file names kept as they are. *)

Lemma SAMPLE_WORLD_ids_ok : ids_ok SAMPLE_WORLD.
Proof.
  split.
  - cbn. repeat constructor; cbn; intuition discriminate.
  - repeat constructor; cbn; lia.
Qed.

Lemma CLEAN_WORLD_no_fakes : no_fakes CLEAN_WORLD.
Proof.
  repeat constructor. cbn. discriminate.
Qed.

Lemma submission_then_sweep_witness :
  no_fakes CLEAN_WORLD
  /\ exists o w',
      @add_news basic_tables SAMPLE_FOLDER keep_filename
                loud_image_request CLEAN_WORLD = Ok (o, w')
      /\ no_fakes w' /\ cleanup_fakes SAMPLE_FOLDER w' = Ok w'.
Proof.
  split; [exact CLEAN_WORLD_no_fakes|].
  destruct (@add_news basic_tables SAMPLE_FOLDER keep_filename
                      loud_image_request CLEAN_WORLD)
    as [[o w']|e] eqn:E; [|vm_compute in E; discriminate E].
  exists o, w'. split; [reflexivity|].
  exact (@submission_then_sweep basic_tables SAMPLE_FOLDER keep_filename
           loud_image_request CLEAN_WORLD w' o CLEAN_WORLD_no_fakes E).
Defined.

Lemma add_news_keeps_ids_witness :
  ids_ok SAMPLE_WORLD
  /\ exists o w',
      @add_news basic_tables SAMPLE_FOLDER keep_filename
                calm_request SAMPLE_WORLD = Ok (o, w')
      /\ ids_ok w'.
Proof.
  split; [exact SAMPLE_WORLD_ids_ok|].
  destruct (@add_news basic_tables SAMPLE_FOLDER keep_filename
                      calm_request SAMPLE_WORLD)
    as [[o w']|e] eqn:E; [|vm_compute in E; discriminate E].
  exists o, w'. split; [reflexivity|].
  exact (@add_news_keeps_ids basic_tables SAMPLE_FOLDER keep_filename
           calm_request SAMPLE_WORLD w' o SAMPLE_WORLD_ids_ok E).
Defined.

Lemma refused_audio_leaves_image_witness :
  @upload_accepted basic_tables keep_filename ALLOWED_IMG
                  (file_image image_and_bad_audio_request) = true
  /\ @upload_accepted basic_tables keep_filename ALLOWED_AUDIO
                     (file_audio image_and_bad_audio_request) = false
  /\ exists w',
      @add_news basic_tables SAMPLE_FOLDER keep_filename
                image_and_bad_audio_request EMPTY_WORLD
      = Ok (BadAudioFormat, w')
      /\ db w' = db EMPTY_WORLD
      /\ os_path_exists
           (fs w')
           (path_join SAMPLE_FOLDER
                      (stamp_image image_and_bad_audio_request
                       ++ keep_filename
                            (name_of (file_image image_and_bad_audio_request))))
         = true.
Proof.
  assert (H1 : is_empty (strip (form_title image_and_bad_audio_request)) = false)
    by (vm_compute; reflexivity).
  assert (H2 : is_empty (strip (form_content image_and_bad_audio_request)) = false)
    by (vm_compute; reflexivity).
  assert (H3 : truthy (file_image image_and_bad_audio_request) = true)
    by (vm_compute; reflexivity).
  assert (H4 : @upload_accepted basic_tables keep_filename ALLOWED_IMG
                 (file_image image_and_bad_audio_request) = true)
    by (vm_compute; reflexivity).
  assert (H5 : @upload_accepted basic_tables keep_filename ALLOWED_AUDIO
                 (file_audio image_and_bad_audio_request) = false)
    by (vm_compute; reflexivity).
  split; [exact H4|]. split; [exact H5|].
  exact (@refused_audio_leaves_image basic_tables SAMPLE_FOLDER keep_filename
           image_and_bad_audio_request EMPTY_WORLD H1 H2 H3 H4 H5).
Defined.

Lemma rejected_uploads_removed_witness :
  exists s w',
    @add_news basic_tables SAMPLE_FOLDER keep_filename
              loud_image_request EMPTY_WORLD = Ok (Rejected s, w')
    /\ os_path_exists
         (fs w')
         (path_join SAMPLE_FOLDER
                    (stamp_image loud_image_request
                     ++ keep_filename (name_of (file_image loud_image_request))))
       = false.
Proof.
  destruct (@add_news basic_tables SAMPLE_FOLDER keep_filename
                      loud_image_request EMPTY_WORLD)
    as [[o w']|e] eqn:E; [|vm_compute in E; discriminate E].
  destruct o as [| | |s|s]; try (vm_compute in E; discriminate E).
  exists s, w'. split; [reflexivity|].
  apply (proj1 (@rejected_uploads_removed basic_tables SAMPLE_FOLDER
                  keep_filename loud_image_request EMPTY_WORLD w' s E)).
  - vm_compute; reflexivity.
  - vm_compute; discriminate.
  - vm_compute; reflexivity.
Defined.

Lemma delete_news_twice_witness :
  exists w',
    delete_news SAMPLE_FOLDER 2 SAMPLE_WORLD = Ok (Deleted, w')
    /\ delete_news SAMPLE_FOLDER 2 w' = Ok (NotFound, w').
Proof.
  destruct (delete_news SAMPLE_FOLDER 2 SAMPLE_WORLD)
    as [[o w']|e] eqn:E; [|vm_compute in E; discriminate E].
  destruct o; [vm_compute in E; discriminate E|].
  exists w'. split; [reflexivity|].
  exact (delete_news_twice SAMPLE_FOLDER 2 SAMPLE_WORLD w' E).
Defined.

Lemma delete_news_folder_effect_witness :
  find (fun x => id x =? 1) (db STUCK_WORLD) = Some STUCK_ROW
  /\ exists w',
      delete_news SAMPLE_FOLDER 1 STUCK_WORLD = Ok (Deleted, w')
      /\ locked (fs w') = locked (fs STUCK_WORLD).
Proof.
  assert (H : find (fun x => id x =? 1) (db STUCK_WORLD) = Some STUCK_ROW)
    by reflexivity.
  split; [exact H|].
  destruct (delete_news SAMPLE_FOLDER 1 STUCK_WORLD)
    as [[o w']|e] eqn:E; [|vm_compute in E; discriminate E].
  destruct o; [vm_compute in E; discriminate E|].
  exists w'. split; [reflexivity|].
  exact (proj1 (delete_news_folder_effect SAMPLE_FOLDER 1 STUCK_WORLD w'
                  STUCK_ROW H E)).
Defined.

Lemma sweep_and_delete_keep_ids_witness :
  ids_ok SAMPLE_WORLD
  /\ exists w',
      cleanup_fakes SAMPLE_FOLDER SAMPLE_WORLD = Ok w' /\ ids_ok w'.
Proof.
  split; [exact SAMPLE_WORLD_ids_ok|].
  destruct (cleanup_fakes SAMPLE_FOLDER SAMPLE_WORLD)
    as [w'|e] eqn:E; [|vm_compute in E; discriminate E].
  exists w'. split; [reflexivity|].
  exact (proj1 (sweep_and_delete_keep_ids SAMPLE_FOLDER SAMPLE_WORLD
                  SAMPLE_WORLD_ids_ok) w' E).
Defined.

Lemma publish_view_delete_witness :
  ids_ok SAMPLE_WORLD
  /\ exists s w',
      @add_news basic_tables SAMPLE_FOLDER keep_filename
                calm_image_request SAMPLE_WORLD = Ok (Published s, w')
      /\ exists w'',
          delete_news SAMPLE_FOLDER (last_id SAMPLE_WORLD + 1) w'
          = Ok (Deleted, w'')
          /\ db w'' = db SAMPLE_WORLD.
Proof.
  split; [exact SAMPLE_WORLD_ids_ok|].
  destruct (@add_news basic_tables SAMPLE_FOLDER keep_filename
                      calm_image_request SAMPLE_WORLD)
    as [[o w']|e] eqn:E; [|vm_compute in E; discriminate E].
  destruct o as [| | |s|s]; try (vm_compute in E; discriminate E).
  exists s, w'. split; [reflexivity|].
  exact (proj2 (@publish_view_delete basic_tables SAMPLE_FOLDER keep_filename
                  calm_image_request SAMPLE_WORLD w' s
                  SAMPLE_WORLD_ids_ok E)).
Defined.


Lemma publish_keeps_uploads_complete_witness :
  check_uploads SAMPLE_FOLDER SAMPLE_WORLD = []
  /\ exists s w',
      @add_news basic_tables SAMPLE_FOLDER keep_filename
                calm_image_request SAMPLE_WORLD = Ok (Published s, w')
      /\ check_uploads SAMPLE_FOLDER w' = [].
Proof.
  assert (H : check_uploads SAMPLE_FOLDER SAMPLE_WORLD = [])
    by (vm_compute; reflexivity).
  split; [exact H|].
  destruct (@add_news basic_tables SAMPLE_FOLDER keep_filename
                      calm_image_request SAMPLE_WORLD)
    as [[o w']|e] eqn:E; [|vm_compute in E; discriminate E].
  destruct o as [| | |s|s]; try (vm_compute in E; discriminate E).
  exists s, w'. split; [reflexivity|].
  exact (@publish_keeps_uploads_complete basic_tables SAMPLE_FOLDER
           keep_filename calm_image_request SAMPLE_WORLD w' s H E).
Defined.

Lemma sweep_keeps_rows_below_threshold_witness :
  exists w',
    cleanup_fakes SAMPLE_FOLDER SAMPLE_WORLD = Ok w'
    /\ In (row_with 3 (py "Луна") 35) (db w').
Proof.
  destruct (sweep_keeps_rows_below_threshold SAMPLE_FOLDER SAMPLE_WORLD)
    as (w' & Hrun & _ & _ & Hkeep).
  exists w'. split; [exact Hrun|].
  apply Hkeep.
  - right. right. left. reflexivity.
  - cbn. discriminate.
Defined.

Lemma add_news_table_effect_witness :
  exists s w',
    @add_news basic_tables SAMPLE_FOLDER keep_filename
              calm_request SAMPLE_WORLD = Ok (Published s, w')
    /\ last_id w' = last_id SAMPLE_WORLD + 1.
Proof.
  destruct (@add_news_table_effect basic_tables SAMPLE_FOLDER keep_filename
              calm_request SAMPLE_WORLD) as (o & w' & Hrun & _ & Hp).
  destruct o as [| | |s|s]; try (vm_compute in Hrun; discriminate Hrun).
  exists s, w'. split; [exact Hrun|].
  destruct (Hp s eq_refl) as (_ & Hl & _). exact Hl.
Defined.

Lemma delete_news_effect_witness :
  exists w',
    delete_news SAMPLE_FOLDER 2 SAMPLE_WORLD = Ok (Deleted, w')
    /\ forall r, In r (db w') -> id r <> 2.
Proof.
  destruct (delete_news_effect SAMPLE_FOLDER 2 SAMPLE_WORLD)
    as (o & w' & Hrun & _ & _ & Hd).
  destruct o; [vm_compute in Hrun; discriminate Hrun|].
  exists w'. split; [exact Hrun|].
  destruct (Hd eq_refl) as (_ & _ & Hgone & _). exact Hgone.
Defined.


Lemma phase_name_agrees_with_illumination_witness :
  name (moon_phase_info 0 (Some FULL_MOON_INSTANT)) = py "Полнолуние"
  /\ (1 / 2 < illum (moon_phase_info 0 (Some FULL_MOON_INSTANT)))%R.
Proof.
  assert (H : name (moon_phase_info 0 (Some FULL_MOON_INSTANT))
              = py "Полнолуние")
    by (unfold moon_phase_info; cbn [name]; vm_compute; reflexivity).
  split; [exact H|].
  apply (proj1 (phase_name_agrees_with_illumination
                  0 (Some FULL_MOON_INSTANT))).
  rewrite H. right. left. reflexivity.
Defined.

Lemma check_news_verdict_witness :
  ONE_HEADLINE <> []
  /\ check_news ONE_HEADLINE close_match = Confirmed (9 # 10).
Proof.
  assert (H : ONE_HEADLINE <> []) by (unfold ONE_HEADLINE; discriminate).
  split; [exact H|].
  destruct (proj1 (proj2 (check_news_verdict ONE_HEADLINE close_match)) H)
    as (h & s & _ & Es & _ & _ & Hc & _).
  unfold close_match in Es. subst s.
  apply Hc. reflexivity.
Defined.
